(** * dynamiccontrol: the validation and policy gate

    A shallow embedding of the request pipeline of the dynamic control
    plane (packages [types], [opa], [validator] and [router]) together with
    the properties of its policy engine, schema validator and handlers.

    External libraries are represented by what this program observes of
    them: a prepared Rego query is a function from its input document to a
    result set and an error, the JSON-schema engine is a function from two
    documents to an outcome, and [encoding/json] is modelled on the value
    kinds the program manipulates.  Calls into the engines, log lines and
    written HTTP responses are recorded, in program order, in a trace. *)

Set Warnings "-register-all".
From Stdlib Require Import Ascii.
From stdpp Require Import gmap strings list pretty.

Open Scope string_scope.
Open Scope list_scope.

(** ** Values *)

(** A JSON text, as produced by [json.Marshal] and consumed by
    [json.Unmarshal] and by the schema engine.  Member order inside an
    object is not observed by this program.  A number is written by its
    value.  The texts the decoder accepts, and so the bodies
    [ShouldBindJSON] accepts, are those of [decoder_accepts] below. *)
Inductive json :=
| JNull
| JBool (b : bool)
| JNumber (n : Z)
| JString (s : string)
| JArray (xs : list json)
| JObject (m : gmap string json).

(** [time.Time], through the two renderings the program uses: the RFC 3339
    text written by its JSON encoding and the layout [20060102150405]. *)
Record Time := { RFC3339 : string; Format_20060102150405 : string }.

(** types.go: StatusResponse *)
Record StatusResponse := {
  sr_Status : string;
  sr_Timestamp : Time;
  sr_Version : string;
  sr_Uptime : Z
}.

(** types.go: TrafficResponse *)
Record TrafficResponse := {
  tr_ID : string;
  tr_ServiceID : string;
  tr_Status : string;
  tr_Message : string;
  tr_Timestamp : Time
}.

(** Go's [interface{}], restricted to the dynamic types that occur in this
    program.  [Nil] is the nil interface.  Slices and maps are reference
    kinds: [None] is the nil slice or nil map held in a non-nil interface.
    [Number] stands for a finite numeric value, whose magnitude the program
    never inspects.  [Unencodable] stands for any value [encoding/json]
    refuses to encode (a channel, a function, a NaN). *)
Inductive any :=
| Nil
| Bool (b : bool)
| Number (n : Z)
| Str (s : string)
| Slice (xs : option (list any))
| Map (m : option (gmap string any))
| StrMap (m : option (gmap string string))
| StatusResponseV (r : StatusResponse)
| TrafficResponseV (r : TrafficResponse)
| Unencodable.

(** [error] values are observed only through their message. *)
Abbreviation error := string (only parsing).

(** ** encoding/json *)

Definition all_some {A} (m : gmap string (option A)) : option (gmap string A) :=
  if decide (map_Forall (λ _ o, is_Some o) m) then Some (omap id m) else None.

Definition Marshal_StatusResponse (r : StatusResponse) : json :=
  JObject {[ "status" := JString (sr_Status r);
             "timestamp" := JString (RFC3339 (sr_Timestamp r));
             "version" := JString (sr_Version r);
             "uptime" := JNumber (sr_Uptime r) ]}.

Definition Marshal_TrafficResponse (r : TrafficResponse) : json :=
  JObject {[ "id" := JString (tr_ID r);
             "serviceId" := JString (tr_ServiceID r);
             "status" := JString (tr_Status r);
             "message" := JString (tr_Message r);
             "timestamp" := JString (RFC3339 (tr_Timestamp r)) ]}.

(** [json.Marshal]: [None] is a non-nil error.  Nil interfaces, nil slices
    and nil maps are written as [null]. *)
Fixpoint Marshal (v : any) : option json :=
  match v with
  | Nil => Some JNull
  | Bool b => Some (JBool b)
  | Number n => Some (JNumber n)
  | Str s => Some (JString s)
  | Slice None => Some JNull
  | Slice (Some xs) => JArray <$> mapM Marshal xs
  | Map None => Some JNull
  | Map (Some m) => JObject <$> all_some (Marshal <$> m)
  | StrMap None => Some JNull
  | StrMap (Some m) => Some (JObject (JString <$> m))
  | StatusResponseV r => Some (Marshal_StatusResponse r)
  | TrafficResponseV r => Some (Marshal_TrafficResponse r)
  | Unencodable => None
  end.

(** Decoding a JSON text that the decoder accepts into an [interface{}].
    A number is kept by its value: the rounding to [float64] is not
    represented. *)
Fixpoint decode (j : json) : any :=
  match j with
  | JNull => Nil
  | JBool b => Bool b
  | JNumber n => Number n
  | JString s => Str s
  | JArray xs => Slice (Some (decode <$> xs))
  | JObject m => Map (Some (decode <$> m))
  end.

(** The nesting depth of a JSON text: the number of arrays and objects
    open at its deepest point. *)
Fixpoint json_depth (j : json) : nat :=
  match j with
  | JArray xs => S (max_list (json_depth <$> xs))
  | JObject m => S (map_fold (λ _ v acc, json_depth v `max` acc) 0%nat m)
  | _ => 0
  end.

(** Whether every number of a JSON text fits a [float64]: its magnitude
    rounds to a finite value. *)
Fixpoint numbers_in_range (j : json) : bool :=
  match j with
  | JNumber n => (Z.abs n <? 2 ^ 1024 - 2 ^ 970)%Z
  | JArray xs => forallb numbers_in_range xs
  | JObject m => map_fold (λ _ v acc, numbers_in_range v && acc) true m
  | _ => true
  end.

(** The texts [json.Unmarshal] accepts into an [interface{}] or a
    [map[string]interface{}]: it refuses a number outside [float64] and a
    text nested deeper than 10000 levels. *)
Definition decoder_accepts (j : json) : bool :=
  (Z.of_nat (json_depth j) <=? 10000)%Z && numbers_in_range j.

(** [json.Unmarshal(bytes, &bodyMap)] for [var bodyMap map[string]interface{}],
    on a text the decoder accepts ([decoder_accepts]): the outer [option] is
    success ([None] is a non-nil error), the inner one the map left in
    [bodyMap].  An object fills the map; [null] is accepted and leaves the
    map nil; every other JSON kind is a type error.  The error the decoder
    returns for a text it refuses is not represented. *)
Definition Unmarshal_map (j : json) : option (option (gmap string any)) :=
  match j with
  | JObject m => Some (Some (decode <$> m))
  | JNull => Some None
  | _ => None
  end.

(** ** package types *)

(** types.go: RouteConfig *)
Record RouteConfig := {
  RouteName : string;
  Method : string;
  RequestSchema : option (gmap string any);
  ResponseSchema : option (gmap string any);
  Policies : list string
}.

(** types.go: PolicyResult *)
Record PolicyResult := { Allowed : bool; Error : string }.

(** types.go: ValidationResult *)
Record ValidationResult := { Valid : bool; Errors : list string; Details : string }.

(** types.go: TrafficRequest *)
Record TrafficRequest := {
  TrafficType : string;
  Volume : Z;
  Priority : string;
  Metadata : option (gmap string any)
}.

(** generateID, given the reading of the clock it takes. *)
Definition generateID (now : Time) : string :=
  "traffic-" +:+ Format_20060102150405 now.

(** GenerateTrafficResponse reads the clock twice: first inside
    [generateID], then for the timestamp. *)
Definition GenerateTrafficResponse (now_id now_ts : Time)
    (serviceID : string) (request : TrafficRequest) : TrafficResponse :=
  {| tr_ID := generateID now_id;
     tr_ServiceID := serviceID;
     tr_Status := "accepted";
     tr_Message := "Traffic request processed successfully";
     tr_Timestamp := now_ts |}.

Definition GenerateStatusResponse (now : Time) : StatusResponse :=
  {| sr_Status := "healthy";
     sr_Timestamp := now;
     sr_Version := "1.0.0";
     sr_Uptime := 3600 |}.

(** ** Effects: a trace of the observable actions *)

Inductive Event :=
| EvRegoEval (policyName : string) (input : gmap string any)
| EvSchemaValidate (schema document : json)
| EvLog (msg : string)
| EvJSON (code : Z) (obj : any).

Definition M (A : Type) : Type := A * list Event.

Definition ret {A} (a : A) : M A := (a, []).

Definition bind {A B} (m : M A) (k : A → M B) : M B :=
  let '(a, t1) := m in let '(b, t2) := k a in (b, t1 ++ t2).

Definition emit (e : Event) : M unit := (tt, [e]).

Definition returned {A} (m : M A) : A := fst m.
Definition trace {A} (m : M A) : list Event := snd m.

Declare Scope trace_scope.
Delimit Scope trace_scope with M.
Notation "x <- m ;; k" := (bind m (λ x, k))
  (at level 100, m at next level, right associativity) : trace_scope.
Notation "m ;; k" := (bind m (λ _, k))
  (at level 100, right associativity) : trace_scope.
Open Scope trace_scope.

(** ** package opa *)

(** rego.ExpressionValue, rego.Result, rego.ResultSet: the fields read here. *)
Record ExpressionValue := { Value : any }.
Record Result := { Expressions : list ExpressionValue }.
Abbreviation ResultSet := (list Result) (only parsing).

(** A prepared query, through [Eval]: the input document determines the
    result set and the error. *)
Abbreviation PreparedEvalQuery :=
  (gmap string any → ResultSet * option error) (only parsing).

Record PolicyManager := { policies : gmap string PreparedEvalQuery }.

Definition NewPolicyManager : PolicyManager := {| policies := ∅ |}.

Definition EvaluatePolicy (pm : PolicyManager) (policyName : string)
    (input : gmap string any) : M (PolicyResult * option error) :=
  match policies pm !! policyName with
  | None =>
      ret ({| Allowed := false;
              Error := "Policy " +:+ policyName +:+ " not found" |}, None)
  | Some preparedQuery =>
      emit (EvRegoEval policyName input) ;;
      let '(results, err) := preparedQuery input in
      match err with
      | Some e =>
          ret ({| Allowed := false;
                  Error := "Policy evaluation error: " +:+ e |}, None)
      | None =>
          match results with
          | [] => ret ({| Allowed := false; Error := "No policy result found" |}, None)
          | r0 :: _ =>
              match Expressions r0 with
              | [] => ret ({| Allowed := false; Error := "No policy result found" |}, None)
              | e0 :: _ =>
                  match Value e0 with
                  | Bool allowed => ret ({| Allowed := allowed; Error := "" |}, None)
                  | _ => ret ({| Allowed := false;
                                 Error := "Policy result is not a boolean" |}, None)
                  end
              end
          end
      end
  end.

(** The [for _, policyName := range policyNames] loop of EvaluatePolicies,
    followed by the final [return] of the function. *)
Fixpoint EvaluatePolicies_range (pm : PolicyManager) (policyNames : list string)
    (input : gmap string any) : M (PolicyResult * option error) :=
  match policyNames with
  | [] => ret ({| Allowed := true; Error := "" |}, None)
  | policyName :: rest =>
      r <- EvaluatePolicy pm policyName input ;;
      let '(result, err) := r in
      match err with
      | Some e =>
          ret ({| Allowed := false;
                  Error := "Policy evaluation error: " +:+ e |}, None)
      | None =>
          if negb (Allowed result) then
            ret ({| Allowed := false;
                    Error := "Policy " +:+ policyName +:+ " denied the request" |}, None)
          else EvaluatePolicies_range pm rest input
      end
  end.

Definition EvaluatePolicies (pm : PolicyManager) (policyNames : list string)
    (input : gmap string any) : M (PolicyResult * option error) :=
  if (length policyNames =? 0)%nat then
    ret ({| Allowed := true; Error := "" |}, None)
  else EvaluatePolicies_range pm policyNames input.

(** CreatePolicyInput *)
Definition CreatePolicyInput (method path : string)
    (headers : option (gmap string string)) (body : any) : gmap string any :=
  let input : gmap string any :=
    {[ "method" := Str method; "path" := Str path; "headers" := StrMap headers ]} in
  match body with
  | Nil => input
  | _ =>
      match Marshal body with
      | Some bodyBytes =>
          match Unmarshal_map bodyBytes with
          | Some bodyMap => <["body" := Map bodyMap]> input
          | None => input
          end
      | None => input
      end
  end.

(** ListLoadedPolicies, up to the unspecified iteration order of a Go map. *)
Definition ListLoadedPolicies (pm : PolicyManager) : gset string :=
  dom (policies pm).

(** ** package strings, package fmt *)

Definition HasPrefix (s prefix : string) : bool := String.prefix prefix s.

Definition HasSuffix (s suffix : string) : bool :=
  (String.length suffix <=? String.length s)%nat &&
  String.eqb
    (String.substring (String.length s - String.length suffix)
       (String.length suffix) s)
    suffix.

Definition TrimPrefix (s prefix : string) : string :=
  if HasPrefix s prefix then
    String.substring (String.length prefix)
      (String.length s - String.length prefix) s
  else s.

(** [strings.Contains] for a non-empty substring. *)
Definition Contains (s substr : string) : bool :=
  bool_decide (is_Some (String.index 0 substr s)).

(** [strings.Split(s, "/")] *)
Fixpoint Split_slash (s : string) : list string :=
  match s with
  | EmptyString => [""]
  | String a s' =>
      if Ascii.eqb a "/"%char then "" :: Split_slash s'
      else match Split_slash s' with
           | [] => [String a ""]
           | w :: ws => String a w :: ws
           end
  end.

Definition Join (elems : list string) (sep : string) : string :=
  String.concat sep elems.

(** The verb [%v] applied to a [[]string]. *)
Definition fmt_v_strings (l : list string) : string :=
  "[" +:+ Join l " " +:+ "]".

(** ** package validator, package router *)

(** gojsonschema.Result, through [Valid()] and the [String()] of each of
    its [Errors()]. *)
Record gojsonschema_Result := { res_Valid : bool; res_Errors : list string }.

(** gin.H *)
Definition H (m : gmap string any) : any := Map (Some m).

(** FormatValidationErrors *)
Definition FormatValidationErrors (errors : list string) : string :=
  if (length errors =? 0)%nat then ""
  else
    let formattedErrors :=
      (λ err, let cleanErr := TrimPrefix err "(root): " in
              TrimPrefix cleanErr "I[0,") <$> errors in
    Join formattedErrors "; ".

(** The schema literal of ValidateTrafficResponse.  A [[]string] literal is
    written as the slice of its strings. *)
Definition traffic_response_schema : gmap string any :=
  {[ "type" := Str "object";
     "properties" := H {[
        "id" := H {[ "type" := Str "string" ]};
        "serviceId" := H {[ "type" := Str "string" ]};
        "status" := H {[ "type" := Str "string";
                         "enum" := Slice (Some [Str "accepted"; Str "rejected"; Str "pending"]) ]};
        "message" := H {[ "type" := Str "string" ]};
        "timestamp" := H {[ "type" := Str "string"; "format" := Str "date-time" ]} ]};
     "required" := Slice (Some [Str "id"; Str "serviceId"; Str "status";
                                Str "message"; Str "timestamp"]) ]}.

(** The schema literal of ValidateStatusResponse. *)
Definition status_response_schema : gmap string any :=
  {[ "type" := Str "object";
     "properties" := H {[
        "status" := H {[ "type" := Str "string";
                         "enum" := Slice (Some [Str "healthy"; Str "degraded"; Str "unhealthy"]) ]};
        "timestamp" := H {[ "type" := Str "string"; "format" := Str "date-time" ]};
        "version" := H {[ "type" := Str "string" ]};
        "uptime" := H {[ "type" := Str "number" ]} ]};
     "required" := Slice (Some [Str "status"; Str "timestamp"; Str "version"; Str "uptime"]) ]}.

(** An inbound request as the handlers read it from [gin.Context]: the
    header multimap, the raw URL path, and the body, which either is a JSON
    text or makes [ShouldBindJSON] fail with the given error. *)
Inductive BodyText :=
| Malformed (err : error)
| WellFormed (j : json).

Record Request := {
  Header : gmap string (list string);
  URL_Path : string;
  Body : BodyText
}.

(** [c.ShouldBindJSON(&requestBody)] for [var requestBody interface{}] *)
Definition ShouldBindJSON (c : Request) : any * option error :=
  match Body c with
  | Malformed err => (Nil, Some err)
  | WellFormed j => (decode j, None)
  end.

(** RouteManager: the configuration and the policy manager.  The schema
    validator and the mock data hold no state that a handler reads. *)
Record RouteManager := {
  config : option (list RouteConfig);
  policyManager : PolicyManager
}.

(** gin.Engine, as the registrations made on it. *)
Abbreviation HandlerFunc := (Request → M unit) (only parsing).
Abbreviation Engine := (list (string * string * HandlerFunc)) (only parsing).

(** The methods and paths registered on an engine. *)
Definition registered (router : Engine) : list (string * string) :=
  (λ r, (r.1.1, r.1.2)) <$> router.

Definition http_StatusOK : Z := 200.
Definition http_StatusBadRequest : Z := 400.
Definition http_StatusForbidden : Z := 403.
Definition http_StatusMethodNotAllowed : Z := 405.
Definition http_StatusInternalServerError : Z := 500.

Section Pipeline.

(** [gojsonschema.Validate] on the two encoded documents. *)
Variable gojsonschema_Validate : json → json → gojsonschema_Result * option error.

(** The text of the error [json.Marshal] reports for a value it refuses. *)
Variable Marshal_error : any → error.

(** [json.Unmarshal] of an encoded request into a [TrafficRequest]. *)
Variable Unmarshal_TrafficRequest : json → TrafficRequest.

(** The successive readings of [time.Now()] while one request is handled. *)
Variable time_Now : nat → Time.

(** ValidateRequest *)
Definition ValidateRequest (schema : option (gmap string any)) (data : any)
    : M ValidationResult :=
  if bool_decide (schema = None) || (size (default ∅ schema) =? 0)%nat then
    ret {| Valid := true; Errors := []; Details := "" |}
  else
    match Marshal (Map schema) with
    | None =>
        ret {| Valid := false;
               Errors := ["Invalid schema: " +:+ Marshal_error (Map schema)];
               Details := "" |}
    | Some schemaBytes =>
        match Marshal data with
        | None =>
            ret {| Valid := false;
                   Errors := ["Invalid data: " +:+ Marshal_error data];
                   Details := "" |}
        | Some dataBytes =>
            emit (EvSchemaValidate schemaBytes dataBytes) ;;
            let '(result, err) := gojsonschema_Validate schemaBytes dataBytes in
            match err with
            | Some e =>
                ret {| Valid := false;
                       Errors := ["Validation error: " +:+ e];
                       Details := "" |}
            | None =>
                if res_Valid result then
                  ret {| Valid := true; Errors := []; Details := "" |}
                else
                  let errors := res_Errors result in
                  ret {| Valid := false;
                         Errors := errors;
                         Details := "Validation failed with "
                                    +:+ pretty (length errors) +:+ " errors" |}
            end
        end
    end.

(** ValidateResponse *)
Definition ValidateResponse (schema : option (gmap string any)) (data : any)
    : M ValidationResult :=
  ValidateRequest schema data.

(** ValidateTrafficResponse *)
Definition ValidateTrafficResponse (response : TrafficResponse) : M ValidationResult :=
  ValidateResponse (Some traffic_response_schema) (TrafficResponseV response).

(** ValidateStatusResponse *)
Definition ValidateStatusResponse (response : StatusResponse) : M ValidationResult :=
  ValidateResponse (Some status_response_schema) (StatusResponseV response).

(** handleGET *)
Definition handleGET (rm : RouteManager) (c : Request) (route : RouteConfig)
    (headers : option (gmap string string)) : M unit :=
  let input := CreatePolicyInput "GET" (RouteName route) headers Nil in
  r <- EvaluatePolicies (policyManager rm) (Policies route) input ;;
  let '(policyResult, err) := r in
  match err with
  | Some e =>
      emit (EvJSON http_StatusInternalServerError
              (H {[ "error" := Str ("Policy evaluation error: " +:+ e) ]}))
  | None =>
      if negb (Allowed policyResult) then
        emit (EvJSON http_StatusForbidden
                (H {[ "error" := Str ("Request denied by policy: "
                                       +:+ Error policyResult) ]}))
      else
        response <-
          (if String.eqb (RouteName route) "/v1/status" then
             let statusResponse := GenerateStatusResponse (time_Now 0) in
             validationResult <- ValidateStatusResponse statusResponse ;;
             (if negb (Valid validationResult) then
                emit (EvLog ("Response validation failed: "
                             +:+ fmt_v_strings (Errors validationResult)))
              else ret tt) ;;
             ret (StatusResponseV statusResponse)
           else
             ret (H {[ "message" := Str "GET request processed successfully";
                       "route" := Str (RouteName route);
                       "method" := Str (Method route) ]})) ;;
        emit (EvJSON http_StatusOK response)
  end.

(** handlePOST *)
Definition handlePOST (rm : RouteManager) (c : Request) (route : RouteConfig)
    (headers : option (gmap string string)) : M unit :=
  let '(requestBody, err) := ShouldBindJSON c in
  match err with
  | Some e =>
      emit (EvJSON http_StatusBadRequest
              (H {[ "error" := Str ("Invalid JSON: " +:+ e) ]}))
  | None =>
      validationResult <- ValidateRequest (RequestSchema route) requestBody ;;
      if negb (Valid validationResult) then
        emit (EvJSON http_StatusBadRequest
                (H {[ "error" := Str "Request validation failed";
                      "details" := Str (FormatValidationErrors
                                          (Errors validationResult)) ]}))
      else
        let input := CreatePolicyInput "POST" (RouteName route) headers requestBody in
        r <- EvaluatePolicies (policyManager rm) (Policies route) input ;;
        let '(policyResult, err) := r in
        match err with
        | Some e =>
            emit (EvJSON http_StatusInternalServerError
                    (H {[ "error" := Str ("Policy evaluation error: " +:+ e) ]}))
        | None =>
            if negb (Allowed policyResult) then
              emit (EvJSON http_StatusForbidden
                      (H {[ "error" := Str ("Request denied by policy: "
                                             +:+ Error policyResult) ]}))
            else
              response <-
                (if Contains (RouteName route) "/services/"
                    && HasSuffix (RouteName route) "/traffic" then
                   let pathParts := Split_slash (URL_Path c) in
                   if (4 <=? length pathParts)%nat then
                     let serviceID := default "" (pathParts !! 3%nat) in
                     let trafficRequest :=
                       match Marshal requestBody with
                       | Some requestBytes => Unmarshal_TrafficRequest requestBytes
                       | None => {| TrafficType := ""; Volume := 0;
                                    Priority := ""; Metadata := None |}
                       end in
                     let trafficResponse :=
                       GenerateTrafficResponse (time_Now 0) (time_Now 1)
                         serviceID trafficRequest in
                     responseValidation <- ValidateTrafficResponse trafficResponse ;;
                     (if negb (Valid responseValidation) then
                        emit (EvLog ("Response validation failed: "
                                     +:+ fmt_v_strings (Errors responseValidation)))
                      else ret tt) ;;
                     ret (TrafficResponseV trafficResponse)
                   else ret Nil
                 else
                   ret (H {[ "message" := Str "POST request processed successfully";
                             "route" := Str (RouteName route);
                             "method" := Str (Method route);
                             "data" := requestBody ]})) ;;
              emit (EvJSON http_StatusOK response)
        end
  end.

(** createHandler *)
Definition createHandler (rm : RouteManager) (route : RouteConfig) : HandlerFunc :=
  λ c,
    let headers : gmap string string := omap head (Header c) in
    if String.eqb (Method route) "GET" then handleGET rm c route (Some headers)
    else if String.eqb (Method route) "POST" then handlePOST rm c route (Some headers)
    else emit (EvJSON http_StatusMethodNotAllowed
                 (H {[ "error" := Str "Method not allowed" ]})).

(** Whether gin's route tree, holding the given methods and paths, refuses
    the method and path for a reason other than an exact duplicate: a clash
    with a registered wildcard segment, or a path that gin cleans to a
    registered one. *)
Variable gin_conflict : list (string * string) → string → string → bool.

(** Whether gin accepts a registration.  It refuses a path already
    registered under the method, and a conflicting one. *)
Definition gin_accepts (router : Engine) (method path : string) : bool :=
  bool_decide ((method, path) ∉ registered router)
  && negb (gin_conflict (registered router) method path).

(** [router.GET], [router.POST], [router.PUT] and [router.DELETE]: the
    engine with the registration added.  [None] is the panic gin raises
    when it refuses the registration. *)
Definition gin_Handle (router : Engine) (method path : string)
    (handler : HandlerFunc) : option Engine :=
  if gin_accepts router method path then Some (router ++ [(method, path, handler)])
  else None.

(** registerRoute: the engine after the call, and the returned error.
    [None] is a panic inside gin. *)
Definition registerRoute (rm : RouteManager) (router : Engine) (route : RouteConfig)
    : option (Engine * option error) :=
  if String.eqb (Method route) "GET" then
    (λ router', (router', None))
      <$> gin_Handle router "GET" (RouteName route) (createHandler rm route)
  else if String.eqb (Method route) "POST" then
    (λ router', (router', None))
      <$> gin_Handle router "POST" (RouteName route) (createHandler rm route)
  else if String.eqb (Method route) "PUT" then
    (λ router', (router', None))
      <$> gin_Handle router "PUT" (RouteName route) (createHandler rm route)
  else if String.eqb (Method route) "DELETE" then
    (λ router', (router', None))
      <$> gin_Handle router "DELETE" (RouteName route) (createHandler rm route)
  else Some (router, Some ("unsupported HTTP method: " +:+ Method route)).

(** *** What the handlers produce once the policies have allowed *)

(** What a response check records: the call of the schema engine, if one is
    made, and a log line when the check reports a violation. *)
Definition logged_check (v : M ValidationResult) : list Event :=
  trace v ++
  (if Valid (returned v) then []
   else [EvLog ("Response validation failed: "
                +:+ fmt_v_strings (Errors (returned v)))]).

(** The value handleGET assigns to [response]. *)
Definition GET_response (route : RouteConfig) : any :=
  if String.eqb (RouteName route) "/v1/status" then
    StatusResponseV (GenerateStatusResponse (time_Now 0))
  else
    H {[ "message" := Str "GET request processed successfully";
         "route" := Str (RouteName route);
         "method" := Str (Method route) ]}.

(** The response check handleGET makes. *)
Definition GET_response_check (route : RouteConfig) : list Event :=
  if String.eqb (RouteName route) "/v1/status" then
    logged_check (ValidateStatusResponse (GenerateStatusResponse (time_Now 0)))
  else [].

(** The traffic response handlePOST generates for a request. *)
Definition POST_traffic_response (c : Request) (requestBody : any) : TrafficResponse :=
  GenerateTrafficResponse (time_Now 0) (time_Now 1)
    (default "" (Split_slash (URL_Path c) !! 3%nat))
    (match Marshal requestBody with
     | Some requestBytes => Unmarshal_TrafficRequest requestBytes
     | None => {| TrafficType := ""; Volume := 0; Priority := ""; Metadata := None |}
     end).

(** The value handlePOST assigns to [response]. *)
Definition POST_response (route : RouteConfig) (c : Request) (requestBody : any) : any :=
  if Contains (RouteName route) "/services/" && HasSuffix (RouteName route) "/traffic" then
    if (4 <=? length (Split_slash (URL_Path c)))%nat then
      TrafficResponseV (POST_traffic_response c requestBody)
    else Nil
  else
    H {[ "message" := Str "POST request processed successfully";
         "route" := Str (RouteName route);
         "method" := Str (Method route);
         "data" := requestBody ]}.

(** The response check handlePOST makes. *)
Definition POST_response_check (route : RouteConfig) (c : Request) (requestBody : any)
    : list Event :=
  if Contains (RouteName route) "/services/" && HasSuffix (RouteName route) "/traffic" then
    if (4 <=? length (Split_slash (URL_Path c)))%nat then
      logged_check (ValidateTrafficResponse (POST_traffic_response c requestBody))
    else []
  else [].

End Pipeline.

(** The route with another configured response schema. *)
Definition with_ResponseSchema (schema : option (gmap string any))
    (route : RouteConfig) : RouteConfig :=
  {| RouteName := RouteName route;
     Method := Method route;
     RequestSchema := RequestSchema route;
     ResponseSchema := schema;
     Policies := Policies route |}.

Definition denied_by_policy (policyResult : PolicyResult) : any :=
  H {[ "error" := Str ("Request denied by policy: " +:+ Error policyResult) ]}.

Definition request_validation_failed (validationResult : ValidationResult) : any :=
  H {[ "error" := Str "Request validation failed";
       "details" := Str (FormatValidationErrors (Errors validationResult)) ]}.


(** ** Specification vocabulary *)

(** The decision of one named policy on an input. *)
Definition allows (pm : PolicyManager) (input : gmap string any)
    (policyName : string) : bool :=
  Allowed (returned (EvaluatePolicy pm policyName input)).1.

(** What evaluating the given names one after the other, each in full,
    records. *)
Definition evaluation_trace (pm : PolicyManager) (input : gmap string any)
    (policyNames : list string) : list Event :=
  flat_map (λ n, trace (EvaluatePolicy pm n input)) policyNames.

(** The outcomes of [Eval] that are not a definitive boolean, each with the
    diagnostic EvaluatePolicy attaches to it. *)
Inductive ambiguous : ResultSet * option error → string → Prop :=
| ambiguous_engine_error rs e :
    ambiguous (rs, Some e) ("Policy evaluation error: " +:+ e)
| ambiguous_no_result :
    ambiguous ([], None) "No policy result found"
| ambiguous_no_expression r rs :
    Expressions r = [] →
    ambiguous (r :: rs, None) "No policy result found"
| ambiguous_not_boolean r rs e es :
    Expressions r = e :: es →
    (∀ b, Value e ≠ Bool b) →
    ambiguous (r :: rs, None) "Policy result is not a boolean".



Definition is_rego_eval (e : Event) : Prop :=
  match e with EvRegoEval _ _ => True | _ => False end.

Definition is_check_or_log (e : Event) : Prop :=
  match e with EvSchemaValidate _ _ | EvLog _ => True | _ => False end.

(** ** Concrete policies, routes and requests *)

Module Scenario.

Definition decided (b : bool) : ResultSet * option error :=
  ([ {| Expressions := [ {| Value := Bool b |} ] |} ], None).

Definition field (o : option any) (k : string) : option any :=
  match o with
  | Some (Map (Some m)) => m !! k
  | _ => None
  end.

Definition one_of (o : option any) (l : list string) : bool :=
  match o with
  | Some (Str s) => bool_decide (s ∈ l)
  | _ => false
  end.

Definition non_negative (o : option any) : bool :=
  match o with
  | Some (Number n) => (0 <=? n)%Z
  | _ => false
  end.

Definition is_str (o : option any) (s : string) : bool :=
  match o with
  | Some (Str s') => String.eqb s' s
  | _ => false
  end.

Definition path_is_traffic (o : option any) : bool :=
  match o with
  | Some (Str p) => HasPrefix p "/v1/services/" && HasSuffix p "/traffic"
  | _ => false
  end.

(** policies/status_policy.rego *)
Definition status_policy : PreparedEvalQuery := λ input,
  decided (is_str (input !! "method") "GET" && is_str (input !! "path") "/v1/status").

(** The traffic policy: POST on a traffic path with a well-formed body. *)
Definition traffic_policy : PreparedEvalQuery := λ input,
  let body := input !! "body" in
  decided (is_str (input !! "method") "POST"
           && path_is_traffic (input !! "path")
           && one_of (field body "trafficType") ["incoming"; "outgoing"; "internal"]
           && non_negative (field body "volume")
           && one_of (field body "priority") ["low"; "medium"; "high"; "critical"]).

(** The service policy: POST on a traffic path. *)
Definition service_policy : PreparedEvalQuery := λ input,
  decided (is_str (input !! "method") "POST" && path_is_traffic (input !! "path")).

(** Queries whose evaluation is not a definitive boolean. *)
Definition failing_policy : PreparedEvalQuery := λ _, ([], Some "eval_internal_error").
Definition undefined_policy : PreparedEvalQuery := λ _, ([], None).
Definition textual_policy : PreparedEvalQuery := λ _,
  ([ {| Expressions := [ {| Value := Str "yes" |} ] |} ], None).

Definition pm : PolicyManager :=
  {| policies := {[ "status_policy" := status_policy;
                    "traffic_policy" := traffic_policy;
                    "service_policy" := service_policy;
                    "failing_policy" := failing_policy;
                    "undefined_policy" := undefined_policy;
                    "textual_policy" := textual_policy ]} |}.

Definition rm : RouteManager := {| config := None; policyManager := pm |}.

Definition traffic_path : string := "/v1/services/service123/traffic".

Definition good_body : json :=
  JObject {[ "trafficType" := JString "incoming";
             "volume" := JNumber 100;
             "priority" := JString "medium" ]}.

Definition bad_body : json :=
  JObject {[ "trafficType" := JString "invalid";
             "volume" := JNumber (-10);
             "priority" := JString "wrong" ]}.

Definition bad_input : gmap string any :=
  CreatePolicyInput "POST" traffic_path (Some ∅) (decode bad_body).

Definition good_input : gmap string any :=
  CreatePolicyInput "POST" traffic_path (Some ∅) (decode good_body).

(** A schema engine that understands the top-level [type] keyword only. *)
Definition kind (j : json) : string :=
  match j with
  | JNull => "null"
  | JBool _ => "boolean"
  | JNumber _ => "number"
  | JString _ => "string"
  | JArray _ => "array"
  | JObject _ => "object"
  end.

Definition type_engine (schema document : json) : gojsonschema_Result * option error :=
  match schema with
  | JObject m =>
      match m !! "type" with
      | Some (JString t) =>
          if String.eqb t (kind document) then
            ({| res_Valid := true; res_Errors := [] |}, None)
          else
            ({| res_Valid := false;
                res_Errors := ["(root): Invalid type. Expected: " +:+ t
                               +:+ ", given: " +:+ kind document] |}, None)
      | _ => ({| res_Valid := true; res_Errors := [] |}, None)
      end
  | _ => ({| res_Valid := false; res_Errors := [] |}, Some "schema is not an object")
  end.

(** A schema engine that finds one violation in every document. *)
Definition rejecting_engine (schema document : json)
    : gojsonschema_Result * option error :=
  ({| res_Valid := false; res_Errors := ["(root): rejected"] |}, None).

Definition marshal_error : any → error := λ _, "json: unsupported type".

(** A route tree with no conflict other than exact duplicates. *)
Definition no_conflict (registered : list (string * string))
    (method path : string) : bool := false.

Definition unmarshal_traffic_request (j : json) : TrafficRequest :=
  let o := Some (decode j) in
  {| TrafficType := match field o "trafficType" with Some (Str s) => s | _ => "" end;
     Volume := match field o "volume" with Some (Number n) => n | _ => 0%Z end;
     Priority := match field o "priority" with Some (Str s) => s | _ => "" end;
     Metadata := match field o "metadata" with Some (Map m) => m | _ => None end |}.

Definition clock (n : nat) : Time :=
  {| RFC3339 := "2024-01-01T12:00:0" +:+ pretty n +:+ "Z";
     Format_20060102150405 := "2024010112000" +:+ pretty n |}.

Definition status_route : RouteConfig :=
  {| RouteName := "/v1/status"; Method := "GET";
     RequestSchema := Some ∅; ResponseSchema := None;
     Policies := ["status_policy"] |}.

Definition traffic_route : RouteConfig :=
  {| RouteName := "/v1/services/service123/traffic"; Method := "POST";
     RequestSchema := Some {[ "type" := Str "object" ]};
     ResponseSchema := None;
     Policies := ["traffic_policy"; "service_policy"] |}.

(** A GET route whose configured response schema asks for a string. *)
Definition items_route : RouteConfig :=
  {| RouteName := "/v1/items"; Method := "GET";
     RequestSchema := None;
     ResponseSchema := Some {[ "type" := Str "string" ]};
     Policies := [] |}.

Definition put_route : RouteConfig :=
  {| RouteName := "/v1/items"; Method := "PUT";
     RequestSchema := Some {[ "type" := Str "object" ]};
     ResponseSchema := None;
     Policies := ["status_policy"] |}.

Definition get_request : Request :=
  {| Header := {[ "Accept" := ["*/*"] ]}; URL_Path := "/v1/status";
     Body := Malformed "EOF" |}.

Definition post_request (j : json) : Request :=
  {| Header := {[ "Content-Type" := ["application/json"] ]};
     URL_Path := traffic_path;
     Body := WellFormed j |}.

(** The handler built for a route, over the engine, decoder and clock
    above. *)
Abbreviation handler :=
  (createHandler type_engine marshal_error unmarshal_traffic_request clock).

End Scenario.

(** ** Start-up: loading policies and configuration, registering routes *)

(** [strings.TrimSuffix] *)
Definition TrimSuffix (s suffix : string) : string :=
  if HasSuffix s suffix then
    String.substring 0 (String.length s - String.length suffix) s
  else s.

(** [os.FileInfo], through [Name()] and [IsDir()]. *)
Record FileInfo := { Name : string; IsDir : bool }.

(** NewRouteManager *)
Definition NewRouteManager (policyManager : PolicyManager) : RouteManager :=
  {| config := None; policyManager := policyManager |}.

(** GetConfig *)
Definition GetConfig (rm : RouteManager) : option (list RouteConfig) := config rm.

Section Loading.

(** [ioutil.ReadDir] and [ioutil.ReadFile]: the file system as the loaders
    read it. *)
Variable ioutil_ReadDir : string → list FileInfo * option error.
Variable ioutil_ReadFile : string → string * option error.
Variable filepath_Join : string → string → string.

(** [rego.New(rego.Query(q), rego.Module(file, source)).PrepareForEval]. *)
Variable rego_PrepareForEval :
  string → string → string → PreparedEvalQuery * option error.

(** [json.Unmarshal] of the configuration file into a [RoutesConfig]. *)
Variable Unmarshal_RoutesConfig : string → list RouteConfig * option error.

(** loadPolicy: the policy manager after the call, and the returned error. *)
Definition loadPolicy (pm : PolicyManager) (policyName policyPath : string)
    : PolicyManager * option error :=
  let '(policyBytes, err) := ioutil_ReadFile policyPath in
  match err with
  | Some e =>
      (pm, Some ("failed to read policy file " +:+ policyPath +:+ ": " +:+ e))
  | None =>
      let '(preparedQuery, err) :=
        rego_PrepareForEval ("data." +:+ policyName +:+ ".allow")
          (policyName +:+ ".rego") policyBytes in
      match err with
      | Some e =>
          (pm, Some ("failed to prepare policy " +:+ policyName +:+ ": " +:+ e))
      | None =>
          ({| policies := <[policyName := preparedQuery]> (policies pm) |}, None)
      end
  end.

(** The [for _, file := range files] loop of LoadPolicies. *)
Fixpoint LoadPolicies_range (pm : PolicyManager) (policiesDir : string)
    (files : list FileInfo) : M PolicyManager :=
  match files with
  | [] => ret pm
  | file :: rest =>
      if IsDir file || negb (HasSuffix (Name file) ".rego") then
        LoadPolicies_range pm policiesDir rest
      else
        let policyName := TrimSuffix (Name file) ".rego" in
        let policyPath := filepath_Join policiesDir (Name file) in
        let '(pm', err) := loadPolicy pm policyName policyPath in
        match err with
        | Some e =>
            emit (EvLog ("Failed to load policy " +:+ policyName +:+ ": " +:+ e)) ;;
            LoadPolicies_range pm' policiesDir rest
        | None =>
            emit (EvLog ("Loaded policy: " +:+ policyName)) ;;
            LoadPolicies_range pm' policiesDir rest
        end
  end.

(** LoadPolicies *)
Definition LoadPolicies (pm : PolicyManager) (policiesDir : string)
    : M (PolicyManager * option error) :=
  let '(files, err) := ioutil_ReadDir policiesDir in
  match err with
  | Some e => ret (pm, Some ("failed to read policies directory: " +:+ e))
  | None =>
      pm' <- LoadPolicies_range pm policiesDir files ;;
      ret (pm', None)
  end.

(** LoadConfig *)
Definition LoadConfig (rm : RouteManager) (configPath : string)
    : M (RouteManager * option error) :=
  let '(configBytes, err) := ioutil_ReadFile configPath in
  match err with
  | Some e => ret (rm, Some ("failed to read config file: " +:+ e))
  | None =>
      let '(routes, err) := Unmarshal_RoutesConfig configBytes in
      match err with
      | Some e => ret (rm, Some ("failed to parse config file: " +:+ e))
      | None =>
          emit (EvLog ("Loaded " +:+ pretty (length routes)
                       +:+ " routes from configuration")) ;;
          ret ({| config := Some routes; policyManager := policyManager rm |}, None)
      end
  end.

(** Whether LoadPolicies registers a policy for this directory entry. *)
Definition loads (policiesDir : string) (file : FileInfo) : bool :=
  negb (IsDir file) && HasSuffix (Name file) ".rego" &&
  match ioutil_ReadFile (filepath_Join policiesDir (Name file)) with
  | (policyBytes, None) =>
      let policyName := TrimSuffix (Name file) ".rego" in
      bool_decide
        ((rego_PrepareForEval ("data." +:+ policyName +:+ ".allow")
            (policyName +:+ ".rego") policyBytes).2 = None)
  | (_, Some _) => false
  end.

End Loading.

Section Registration.

Variable gojsonschema_Validate : json → json → gojsonschema_Result * option error.
Variable Marshal_error : any → error.
Variable Unmarshal_TrafficRequest : json → TrafficRequest.
Variable time_Now : nat → Time.
Variable gin_conflict : list (string * string) → string → string → bool.

(** The [for _, route := range rm.config.Routes] loop of RegisterRoutes.
    [None] is a panic inside gin, which abandons the loop. *)
Fixpoint RegisterRoutes_range (rm : RouteManager) (router : Engine)
    (routes : list RouteConfig) : M (option Engine) :=
  match routes with
  | [] => ret (Some router)
  | route :: rest =>
      match registerRoute gojsonschema_Validate Marshal_error
              Unmarshal_TrafficRequest time_Now gin_conflict rm router route with
      | None => ret None
      | Some (router', Some e) =>
          emit (EvLog ("Failed to register route " +:+ RouteName route
                       +:+ ": " +:+ e)) ;;
          RegisterRoutes_range rm router' rest
      | Some (router', None) =>
          emit (EvLog ("Registered route: " +:+ Method route +:+ " "
                       +:+ RouteName route)) ;;
          RegisterRoutes_range rm router' rest
      end
  end.

(** RegisterRoutes: the engine after the call, and the returned error.
    [None] is a panic inside gin. *)
Definition RegisterRoutes (rm : RouteManager) (router : Engine)
    : M (option (Engine * option error)) :=
  match config rm with
  | None => ret (Some (router, Some "no configuration loaded"))
  | Some routes =>
      router' <- RegisterRoutes_range rm router routes ;;
      ret ((λ r, (r, None)) <$> router')
  end.

End Registration.

(** The methods of registerRoute's switch. *)
Definition supported_method (method : string) : bool :=
  bool_decide (method ∈ ["GET"; "POST"; "PUT"; "DELETE"]).

(** The route with another configured request schema. *)
Definition with_RequestSchema (schema : option (gmap string any))
    (route : RouteConfig) : RouteConfig :=
  {| RouteName := RouteName route;
     Method := Method route;
     RequestSchema := schema;
     ResponseSchema := ResponseSchema route;
     Policies := Policies route |}.

Definition is_response (e : Event) : Prop :=
  match e with EvJSON _ _ => True | _ => False end.

Definition is_log (e : Event) : Prop :=
  match e with EvLog _ => True | _ => False end.

(** The strings of a [[]string] schema keyword such as [required] or [enum]. *)
Definition strings_of (o : option any) : list string :=
  match o with
  | Some (Slice (Some xs)) =>
      omap (λ x, match x with Str s => Some s | _ => None end) xs
  | _ => []
  end.

(** The member of an object held in an [interface{}]. *)
Definition member (o : option any) (k : string) : option any :=
  match o with
  | Some (Map (Some m)) => m !! k
  | _ => None
  end.

(** The size of a JSON text: the number of its nodes. *)
Fixpoint json_size (j : json) : nat :=
  match j with
  | JArray xs => S (sum_list_with json_size xs)
  | JObject m => S (map_fold (λ _ v acc, json_size v + acc)%nat 0%nat m)
  | _ => 1
  end.

(** Whether a string is free of the separator [/]. *)
Fixpoint no_slash (s : string) : bool :=
  match s with
  | EmptyString => true
  | String a s' => negb (Ascii.eqb a "/"%char) && no_slash s'
  end.

(** *** A policies directory and a configuration file *)

Module Startup.

Definition files : list FileInfo :=
  [ {| Name := "archive"; IsDir := true |};
    {| Name := "broken_policy.rego"; IsDir := false |};
    {| Name := "service_policy.rego"; IsDir := false |};
    {| Name := "status_policy.rego"; IsDir := false |};
    {| Name := "status_policy.rego.test"; IsDir := false |};
    {| Name := "unreadable_policy.rego"; IsDir := false |} ].

Definition read_dir (dir : string) : list FileInfo * option error :=
  if String.eqb dir "policies" then (files, None)
  else ([], Some ("open " +:+ dir +:+ ": no such file or directory")).

Definition join (dir name : string) : string := dir +:+ "/" +:+ name.

Definition read_file (path : string) : string * option error :=
  if String.eqb path "policies/unreadable_policy.rego" then
    ("", Some "permission denied")
  else if String.eqb path "config/routes.json" then ("routes", None)
  else (path, None).

(** Compilation succeeds except for the broken policy; the service policy
    and the status policy compile to the queries of [Scenario]. *)
Definition prepare (query file source : string)
    : PreparedEvalQuery * option error :=
  if String.eqb file "broken_policy.rego" then
    (Scenario.undefined_policy, Some "rego_parse_error")
  else if String.eqb file "status_policy.rego" then (Scenario.status_policy, None)
  else (Scenario.service_policy, None).

Definition lowercase_route : RouteConfig :=
  {| RouteName := "/v1/lower"; Method := "get";
     RequestSchema := None; ResponseSchema := None; Policies := [] |}.

Definition parse_config (bytes : string) : list RouteConfig * option error :=
  if String.eqb bytes "routes" then
    ([Scenario.status_route; lowercase_route; Scenario.put_route], None)
  else ([], Some "unexpected end of JSON input").

(** The loaders over this file system. *)
Abbreviation load_policies := (LoadPolicies read_dir read_file join prepare).
Abbreviation loads_here := (loads read_file join prepare).

End Startup.

(** ** The trace monad *)

Lemma trace_bind {A B} (m : M A) (k : A → M B) :
  trace (bind m k) = trace m ++ trace (k (returned m)).
Proof. destruct m as [a t]. unfold bind, trace, returned. simpl. by destruct (k a). Qed.

Lemma returned_bind {A B} (m : M A) (k : A → M B) :
  returned (bind m k) = returned (k (returned m)).
Proof. destruct m as [a t]. unfold bind, trace, returned. simpl. by destruct (k a). Qed.

(** ** The policy engine *)

(** EvaluatePolicy never returns a non-nil error. *)
Lemma EvaluatePolicy_nil_error pm policyName input :
  (returned (EvaluatePolicy pm policyName input)).2 = None.
Proof.
  unfold EvaluatePolicy.
  destruct (policies pm !! policyName) as [q|]; [|done].
  rewrite returned_bind.
  destruct (q input) as [rs [e|]]; [done|].
  destruct rs as [|r0 rs]; [done|].
  destruct (Expressions r0) as [|e0 es]; [done|].
  by destruct (Value e0).
Qed.

(** The loop of EvaluatePolicies, one iteration unfolded. *)
Lemma EvaluatePolicies_range_cons pm n rest input :
  EvaluatePolicies_range pm (n :: rest) input =
  if allows pm input n then
    (returned (EvaluatePolicies_range pm rest input),
     trace (EvaluatePolicy pm n input) ++ trace (EvaluatePolicies_range pm rest input))
  else
    (({| Allowed := false; Error := "Policy " +:+ n +:+ " denied the request" |}, None),
     trace (EvaluatePolicy pm n input)).
Proof.
  unfold allows. cbn [EvaluatePolicies_range].
  pose proof (EvaluatePolicy_nil_error pm n input) as Herr.
  destruct (EvaluatePolicy pm n input) as [[r err] t].
  unfold returned, trace in *. simpl in *. subst err.
  destruct (Allowed r); simpl.
  - by destruct (EvaluatePolicies_range pm rest input).
  - by rewrite app_nil_r.
Qed.

Lemma EvaluatePolicies_is_range pm policyNames input :
  EvaluatePolicies pm policyNames input = EvaluatePolicies_range pm policyNames input.
Proof. by destruct policyNames. Qed.

(** The loop either passes every name, or stops at the first name that
    denies. *)
Lemma EvaluatePolicies_range_spec pm input policyNames :
  (EvaluatePolicies_range pm policyNames input =
     (({| Allowed := true; Error := "" |}, None),
      evaluation_trace pm input policyNames)
   ∧ Forall (λ n, allows pm input n = true) policyNames)
  ∨ (∃ pre d post,
       policyNames = pre ++ d :: post
       ∧ Forall (λ n, allows pm input n = true) pre
       ∧ allows pm input d = false
       ∧ EvaluatePolicies_range pm policyNames input =
           (({| Allowed := false;
                Error := "Policy " +:+ d +:+ " denied the request" |}, None),
            evaluation_trace pm input (pre ++ [d]))).
Proof.
  induction policyNames as [|n rest IH].
  - left. split; [done | constructor].
  - rewrite EvaluatePolicies_range_cons.
    destruct (allows pm input n) eqn:Hn.
    + destruct IH as [[Heq Hall] | (pre & d & post & -> & Hpre & Hd & Heq)].
      * left. rewrite Heq. split; [done | by constructor].
      * right. exists (n :: pre), d, post. rewrite Heq.
        repeat split; try done. by constructor.
    + right. exists [], n, rest. repeat split; try done.
      unfold evaluation_trace. simpl. by rewrite app_nil_r.
Qed.

(** EvaluatePolicy allows only on a definitive [true]. *)
Lemma EvaluatePolicy_allowed_inv pm policyName input :
  allows pm input policyName = true →
  ∃ preparedQuery r rs e es,
    policies pm !! policyName = Some preparedQuery
    ∧ preparedQuery input = (r :: rs, None)
    ∧ Expressions r = e :: es
    ∧ Value e = Bool true.
Proof.
  unfold allows, EvaluatePolicy.
  destruct (policies pm !! policyName) as [q|]; [|done].
  rewrite returned_bind.
  destruct (q input) as [rs [err|]] eqn:Hq; [done|].
  destruct rs as [|r rs]; [done|].
  destruct (Expressions r) as [|e es] eqn:Hr; [done|].
  destruct (Value e) as [|b| | | | | | | |] eqn:Hv; try done.
  simpl. intros ->. by exists q, r, rs, e, es.
Qed.

Lemma length_append (s1 s2 : string) :
  String.length (s1 +:+ s2) = (String.length s1 + String.length s2)%nat.
Proof. induction s1 as [|a s1 IH]; simpl; [done | by rewrite IH]. Qed.

(** The denial message determines the name it was built from. *)
Lemma append_cancel_r (s1 s2 t : string) : s1 +:+ t = s2 +:+ t → s1 = s2.
Proof.
  revert s2. induction s1 as [|a s1 IH]; intros [|b s2] Heq.
  - done.
  - apply (f_equal String.length) in Heq.
    rewrite !length_append in Heq. simpl in Heq. lia.
  - apply (f_equal String.length) in Heq.
    rewrite !length_append in Heq. simpl in Heq. lia.
  - simpl in Heq. injection Heq as -> Heq. f_equal. by apply IH.
Qed.

Lemma denial_message_inj (d d' : string) :
  "Policy " +:+ d +:+ " denied the request" = "Policy " +:+ d' +:+ " denied the request" →
  d = d'.
Proof.
  intros Heq. simpl in Heq. apply (append_cancel_r _ _ " denied the request").
  by simplify_eq.
Qed.

Lemma unknown_policy_denies pm policyName input :
  policies pm !! policyName = None →
  allows pm input policyName = false.
Proof. intros Hnone. unfold allows, EvaluatePolicy. by rewrite Hnone. Qed.

(** C7. EvaluatePolicies on an empty list of names returns
    [{Allowed: true}] with a nil error, and records nothing: no policy is
    evaluated. *)
Theorem EvaluatePolicies_no_policies pm input :
  returned (EvaluatePolicies pm [] input) = ({| Allowed := true; Error := "" |}, None)
  ∧ trace (EvaluatePolicies pm [] input) = [].
Proof. done. Qed.

(** C2. A name that is not registered is denied by EvaluatePolicy with the
    error [Policy <name> not found], without calling the engine, and every
    list of names that contains it is denied by EvaluatePolicies. *)
Theorem unknown_policy_fails_closed pm policyName :
  policies pm !! policyName = None →
  (∀ input,
     EvaluatePolicy pm policyName input =
     ret ({| Allowed := false;
             Error := "Policy " +:+ policyName +:+ " not found" |}, None))
  ∧ (∀ policyNames input,
       policyName ∈ policyNames →
       Allowed (returned (EvaluatePolicies pm policyNames input)).1 = false).
Proof.
  intros Hnone. split.
  - intros input. unfold EvaluatePolicy. by rewrite Hnone.
  - intros policyNames input Hin. rewrite EvaluatePolicies_is_range.
    destruct (EvaluatePolicies_range_spec pm input policyNames)
      as [[_ Hall] | (pre & d & post & _ & _ & _ & ->)]; [|done].
    rewrite Forall_forall in Hall. apply Hall in Hin.
    by rewrite unknown_policy_denies in Hin.
Qed.

(** C6. For a registered policy whose evaluation raises an engine error,
    yields no result, or yields a value that is not a boolean,
    EvaluatePolicy returns [Allowed: false] with the corresponding
    non-empty diagnostic, and a nil error. *)
Theorem EvaluatePolicy_ambiguous_denies pm policyName preparedQuery input diagnostic :
  policies pm !! policyName = Some preparedQuery →
  ambiguous (preparedQuery input) diagnostic →
  returned (EvaluatePolicy pm policyName input) =
    ({| Allowed := false; Error := diagnostic |}, None)
  ∧ diagnostic ≠ "".
Proof.
  intros Hq Hamb. unfold EvaluatePolicy. rewrite Hq, returned_bind.
  inversion Hamb as [rs e Heq | Heq | r rs Hr Heq | r rs e es Hr Hv Heq]; subst.
  - done.
  - done.
  - by rewrite Hr.
  - rewrite Hr. split; [|done].
    destruct (Value e) eqn:Hval; try done. by destruct (Hv b).
Qed.

(** C1, as amended. For a non-empty list of names EvaluatePolicies allows
    exactly when every named policy allows; the names are evaluated in list
    order up to and including the first one that denies, and none after it;
    the denial carries the error [Policy <name> denied the request] for
    that first denying name. *)
Theorem EvaluatePolicies_conjunction pm input policyNames :
  policyNames ≠ [] →
  let out := EvaluatePolicies pm policyNames input in
  (Allowed (returned out).1 = true ↔
     ∀ n, n ∈ policyNames → allows pm input n = true)
  ∧ (Allowed (returned out).1 = true →
       trace out = evaluation_trace pm input policyNames)
  ∧ (Allowed (returned out).1 = false →
       ∃ pre d post,
         policyNames = pre ++ d :: post
         ∧ (∀ n, n ∈ pre → allows pm input n = true)
         ∧ allows pm input d = false
         ∧ Error (returned out).1 = "Policy " +:+ d +:+ " denied the request"
         ∧ trace out = evaluation_trace pm input (pre ++ [d])).
Proof.
  intros _ out. subst out. rewrite EvaluatePolicies_is_range.
  destruct (EvaluatePolicies_range_spec pm input policyNames)
    as [[-> Hall] | (pre & d & post & Hnames & Hpre & Hd & ->)].
  - rewrite Forall_forall in Hall. repeat split; try done.
  - repeat split; try done.
    + intros Hall. rewrite Hall in Hd; [done|].
      rewrite Hnames. set_solver.
    + intros _. exists pre, d, post. rewrite Forall_forall in Hpre. done.
Qed.


(** ** The schema validator and the handlers *)

Lemma EvaluatePolicies_nil_error pm policyNames input :
  (returned (EvaluatePolicies pm policyNames input)).2 = None.
Proof.
  rewrite EvaluatePolicies_is_range.
  destruct (EvaluatePolicies_range_spec pm input policyNames)
    as [[-> _] | (pre & d & post & _ & _ & _ & ->)]; done.
Qed.

Lemma EvaluatePolicy_trace pm policyName input :
  Forall is_rego_eval (trace (EvaluatePolicy pm policyName input)).
Proof.
  unfold EvaluatePolicy.
  destruct (policies pm !! policyName) as [q|]; [|constructor].
  rewrite trace_bind. apply Forall_app. split; [by repeat constructor|].
  destruct (q input) as [rs [e|]]; [constructor|].
  destruct rs as [|r0 rs]; [constructor|].
  destruct (Expressions r0) as [|e0 es]; [constructor|].
  destruct (Value e0); constructor.
Qed.

Lemma evaluation_trace_rego pm input policyNames :
  Forall is_rego_eval (evaluation_trace pm input policyNames).
Proof.
  induction policyNames as [|n rest IH]; [constructor|].
  unfold evaluation_trace. simpl. apply Forall_app. split; [|done].
  apply EvaluatePolicy_trace.
Qed.

Lemma EvaluatePolicies_trace pm policyNames input :
  Forall is_rego_eval (trace (EvaluatePolicies pm policyNames input)).
Proof.
  rewrite EvaluatePolicies_is_range.
  destruct (EvaluatePolicies_range_spec pm input policyNames)
    as [[-> _] | (pre & d & post & _ & _ & _ & ->)];
    apply evaluation_trace_rego.
Qed.

Section PipelineProperties.

Variable gojsonschema_Validate : json → json → gojsonschema_Result * option error.
Variable Marshal_error : any → error.
Variable Unmarshal_TrafficRequest : json → TrafficRequest.
Variable time_Now : nat → Time.
Variable gin_conflict : list (string * string) → string → string → bool.

Local Abbreviation ValidateRequest' := (ValidateRequest gojsonschema_Validate Marshal_error).
Local Abbreviation ValidateResponse' := (ValidateResponse gojsonschema_Validate Marshal_error).
Local Abbreviation handleGET' :=
  (handleGET gojsonschema_Validate Marshal_error time_Now).
Local Abbreviation handlePOST' :=
  (handlePOST gojsonschema_Validate Marshal_error Unmarshal_TrafficRequest time_Now).
Local Abbreviation createHandler' :=
  (createHandler gojsonschema_Validate Marshal_error Unmarshal_TrafficRequest time_Now).
Local Abbreviation registerRoute' :=
  (registerRoute gojsonschema_Validate Marshal_error Unmarshal_TrafficRequest time_Now
     gin_conflict).
Local Abbreviation GET_response' := (GET_response time_Now).
Local Abbreviation GET_response_check' :=
  (GET_response_check gojsonschema_Validate Marshal_error time_Now).
Local Abbreviation POST_response' := (POST_response Unmarshal_TrafficRequest time_Now).
Local Abbreviation POST_response_check' :=
  (POST_response_check gojsonschema_Validate Marshal_error Unmarshal_TrafficRequest time_Now).

Lemma ValidateRequest_trace schema data :
  Forall is_check_or_log (trace (ValidateRequest' schema data)).
Proof.
  unfold ValidateRequest.
  destruct (bool_decide (schema = None) || _); [constructor|].
  destruct (Marshal (Map schema)); [|constructor].
  destruct (Marshal data); [|constructor].
  rewrite trace_bind. apply Forall_app. split; [by repeat constructor|].
  destruct (gojsonschema_Validate _ _) as [res [e|]]; [constructor|].
  destruct (res_Valid res); constructor.
Qed.

Lemma logged_check_events (v : M ValidationResult) :
  Forall is_check_or_log (trace v) → Forall is_check_or_log (logged_check v).
Proof.
  intros Hv. unfold logged_check. apply Forall_app. split; [done|].
  destruct (Valid (returned v)); by repeat constructor.
Qed.

Lemma GET_response_check_events route :
  Forall is_check_or_log (GET_response_check' route).
Proof.
  unfold GET_response_check. destruct (String.eqb _ _); [|constructor].
  apply logged_check_events, ValidateRequest_trace.
Qed.

Lemma POST_response_check_events route c requestBody :
  Forall is_check_or_log (POST_response_check' route c requestBody).
Proof.
  unfold POST_response_check.
  destruct (_ && _); [|constructor]. destruct (_ <=? _)%nat; [|constructor].
  apply logged_check_events, ValidateRequest_trace.
Qed.

(** The trace of the steps that follow a validation in a handler. *)
Lemma checked_then_trace {A} (v : M ValidationResult) (x : A) :
  trace (validationResult <- v ;;
         (if negb (Valid validationResult) then
            emit (EvLog ("Response validation failed: "
                         +:+ fmt_v_strings (Errors validationResult)))
          else ret tt) ;;
         ret x) = logged_check v
  ∧ returned (validationResult <- v ;;
         (if negb (Valid validationResult) then
            emit (EvLog ("Response validation failed: "
                         +:+ fmt_v_strings (Errors validationResult)))
          else ret tt) ;;
         ret x) = x.
Proof.
  destruct v as [r t]. unfold logged_check, bind, trace, returned. simpl.
  destruct (Valid r); simpl; by rewrite ?app_nil_r.
Qed.

(** handleGET, as the sequence of what it records. *)
Lemma handleGET_trace rm c route headers :
  let ep := EvaluatePolicies (policyManager rm) (Policies route)
              (CreatePolicyInput "GET" (RouteName route) headers Nil) in
  trace (handleGET' rm c route headers) =
  trace ep ++
  (if Allowed (returned ep).1 then
     GET_response_check' route ++ [EvJSON http_StatusOK (GET_response' route)]
   else [EvJSON http_StatusForbidden (denied_by_policy (returned ep).1)]).
Proof.
  intros ep. unfold handleGET. fold ep. rewrite trace_bind. f_equal.
  pose proof (EvaluatePolicies_nil_error (policyManager rm) (Policies route)
    (CreatePolicyInput "GET" (RouteName route) headers Nil)) as Herr.
  fold ep in Herr. destruct (returned ep) as [policyResult err].
  simpl in Herr. subst err. simpl.
  destruct (Allowed policyResult); [|done]. simpl.
  rewrite trace_bind. unfold GET_response_check, GET_response.
  destruct (String.eqb (RouteName route) "/v1/status").
  - by destruct (checked_then_trace
      (ValidateStatusResponse gojsonschema_Validate Marshal_error
         (GenerateStatusResponse (time_Now 0)))
      (StatusResponseV (GenerateStatusResponse (time_Now 0)))) as [-> ->].
  - done.
Qed.

(** handlePOST, as the sequence of what it records. *)
Lemma handlePOST_trace rm c route headers :
  trace (handlePOST' rm c route headers) =
  match Body c with
  | Malformed e =>
      [EvJSON http_StatusBadRequest (H {[ "error" := Str ("Invalid JSON: " +:+ e) ]})]
  | WellFormed j =>
      let requestBody := decode j in
      let v := ValidateRequest' (RequestSchema route) requestBody in
      let ep := EvaluatePolicies (policyManager rm) (Policies route)
                  (CreatePolicyInput "POST" (RouteName route) headers requestBody) in
      trace v ++
      (if Valid (returned v) then
         trace ep ++
         (if Allowed (returned ep).1 then
            POST_response_check' route c requestBody
            ++ [EvJSON http_StatusOK (POST_response' route c requestBody)]
          else [EvJSON http_StatusForbidden (denied_by_policy (returned ep).1)])
       else [EvJSON http_StatusBadRequest (request_validation_failed (returned v))])
  end.
Proof.
  unfold handlePOST, ShouldBindJSON.
  destruct (Body c) as [e|j]; [done|].
  cbv beta iota zeta.
  set (requestBody := decode j).
  set (v := ValidateRequest' (RequestSchema route) requestBody).
  set (ep := EvaluatePolicies (policyManager rm) (Policies route)
               (CreatePolicyInput "POST" (RouteName route) headers requestBody)).
  rewrite trace_bind. f_equal.
  destruct (Valid (returned v)); cbn [negb]; [|done].
  rewrite trace_bind. f_equal.
  pose proof (EvaluatePolicies_nil_error (policyManager rm) (Policies route)
    (CreatePolicyInput "POST" (RouteName route) headers requestBody)) as Herr.
  fold ep in Herr. destruct (returned ep) as [policyResult err].
  simpl in Herr. subst err. cbv beta iota zeta. cbn [fst].
  destruct (Allowed policyResult); cbn [negb]; [|done].
  rewrite trace_bind. unfold POST_response_check, POST_response.
  destruct (Contains _ _ && HasSuffix _ _); [|done].
  destruct (4 <=? _)%nat; [|done].
  cbv zeta. unfold POST_traffic_response.
  match goal with
  | |- trace (bind ?v (λ _, bind _ (λ _, ret ?x))) ++ _ = _ =>
      destruct (checked_then_trace v x) as [Ht Hr]
  end.
  by rewrite Ht, Hr.
Qed.



Lemma check_or_log_not_rego_eval l :
  Forall is_check_or_log l → Forall (λ e, ¬ is_rego_eval e) l.
Proof.
  intros Hl. eapply Forall_impl; [exact Hl|].
  intros [] Hx; simpl in *; tauto.
Qed.


Lemma response_not_rego_eval code obj :
  Forall (λ e, ¬ is_rego_eval e) [EvJSON code obj].
Proof. apply Forall_singleton. simpl. tauto. Qed.

Lemma createHandler_GET rm route c :
  Method route = "GET" →
  createHandler' rm route c = handleGET' rm c route (Some (omap head (Header c))).
Proof. intros Hm. unfold createHandler. by rewrite Hm. Qed.

Lemma createHandler_POST rm route c :
  Method route = "POST" →
  createHandler' rm route c = handlePOST' rm c route (Some (omap head (Header c))).
Proof. intros Hm. unfold createHandler. by rewrite Hm. Qed.

Lemma createHandler_other rm route c :
  Method route ≠ "GET" → Method route ≠ "POST" →
  createHandler' rm route c =
  emit (EvJSON http_StatusMethodNotAllowed (H {[ "error" := Str "Method not allowed" ]})).
Proof.
  intros Hg Hp. unfold createHandler.
  destruct (String.eqb_spec (Method route) "GET"); [done|].
  by destruct (String.eqb_spec (Method route) "POST").
Qed.

(** C5. With a nil or empty schema, ValidateRequest (and ValidateResponse,
    which delegates to it) returns [{Valid: true}] at once, whatever the
    value and whatever the schema engine: nothing is encoded, the engine is
    not called, and nothing is recorded. *)
Theorem ValidateRequest_no_schema schema data :
  schema = None ∨ schema = Some ∅ →
  ValidateRequest' schema data = ret {| Valid := true; Errors := []; Details := "" |}
  ∧ ValidateResponse' schema data = ret {| Valid := true; Errors := []; Details := "" |}.
Proof. by intros [-> | ->]. Qed.

(** C3. On a POST route, for a request whose body is a JSON text, request
    validation comes first: what it records is a prefix of what the handler
    records and contains no policy evaluation.  When the validation fails,
    the handler only adds the 400 response [Request validation failed] with
    the formatted errors, and no policy is evaluated at all. *)
Theorem request_validation_precedes_policies rm route c j :
  Method route = "POST" →
  Body c = WellFormed j →
  let v := ValidateRequest' (RequestSchema route) (decode j) in
  (∃ rest, trace (createHandler' rm route c) = trace v ++ rest
           ∧ Forall (λ e, ¬ is_rego_eval e) (trace v))
  ∧ (Valid (returned v) = false →
       trace (createHandler' rm route c) =
         trace v ++ [EvJSON http_StatusBadRequest (request_validation_failed (returned v))]
       ∧ Forall (λ e, ¬ is_rego_eval e) (trace (createHandler' rm route c))).
Proof.
  intros Hm Hb v. rewrite createHandler_POST by done.
  rewrite handlePOST_trace, Hb. cbv zeta. fold v.
  assert (Hv : Forall (λ e, ¬ is_rego_eval e) (trace v))
    by apply check_or_log_not_rego_eval, ValidateRequest_trace.
  split; [eauto|].
  intros ->. split; [done|].
  apply Forall_app. split; [done|]. apply response_not_rego_eval.
Qed.

(** C4, as amended. Once the policies have allowed, the handler records
    its response check and then writes the produced response with status
    200; the check consists of schema-engine calls and log lines only, and
    the response value does not depend on it.  The check is the validator's
    own status or traffic response schema, followed by a log line when it
    reports a violation; the response schema configured on the route plays
    no part in what the handler does. *)
Theorem response_validation_is_advisory rm route c headers :
  (let ep := EvaluatePolicies (policyManager rm) (Policies route)
               (CreatePolicyInput "GET" (RouteName route) headers Nil) in
   Allowed (returned ep).1 = true →
   trace (handleGET' rm c route headers) =
     trace ep ++ GET_response_check' route
     ++ [EvJSON http_StatusOK (GET_response' route)])
  ∧ (∀ j, Body c = WellFormed j →
       let requestBody := decode j in
       let v := ValidateRequest' (RequestSchema route) requestBody in
       let ep := EvaluatePolicies (policyManager rm) (Policies route)
                   (CreatePolicyInput "POST" (RouteName route) headers requestBody) in
       Valid (returned v) = true →
       Allowed (returned ep).1 = true →
       trace (handlePOST' rm c route headers) =
         trace v ++ trace ep ++ POST_response_check' route c requestBody
         ++ [EvJSON http_StatusOK (POST_response' route c requestBody)])
  ∧ Forall is_check_or_log (GET_response_check' route)
  ∧ (∀ requestBody, Forall is_check_or_log (POST_response_check' route c requestBody))
  ∧ (∀ schema, createHandler' rm (with_ResponseSchema schema route) c
               = createHandler' rm route c).
Proof.
  split_and!.
  - intros ep Hallow. rewrite handleGET_trace. cbv zeta. fold ep. by rewrite Hallow.
  - intros j Hb requestBody v ep Hvalid Hallow.
    rewrite handlePOST_trace, Hb. cbv zeta. fold requestBody v ep.
    by rewrite Hvalid, Hallow.
  - apply GET_response_check_events.
  - intros requestBody. apply POST_response_check_events.
  - intros schema. by destruct route.
Qed.

(** C8, as amended. A route configured with PUT or DELETE passes the
    method switch of registerRoute: when gin accepts the method and name on
    the engine, the route is registered under that method with the handler
    createHandler builds for it and registerRoute returns a nil error; when
    gin refuses them, the call panics.  The handler answers every request
    with 405 [Method not allowed] and records nothing else: no schema
    validation, no policy evaluation, no response production. *)
Theorem put_and_delete_are_registered_but_refused rm router route :
  Method route = "PUT" ∨ Method route = "DELETE" →
  registerRoute' rm router route =
    (if gin_accepts gin_conflict router (Method route) (RouteName route) then
       Some (router ++ [(Method route, RouteName route, createHandler' rm route)],
             None)
     else None)
  ∧ ∀ c, createHandler' rm route c =
         ((), [EvJSON http_StatusMethodNotAllowed
                 (H {[ "error" := Str "Method not allowed" ]})]).
Proof.
  intros Hm. split.
  - unfold registerRoute, gin_Handle.
    destruct Hm as [-> | ->]; simpl; by destruct (gin_accepts _ _ _ _).
  - intros c. apply createHandler_other; by destruct Hm as [-> | ->].
Qed.


End PipelineProperties.

(** ** The laws on concrete policies, routes and requests *)

Module Examples.
Import Scenario.

(** Scenario D: the traffic policy denies, the service policy is not
    evaluated, and the outcome names the traffic policy in its error. *)
Lemma EvaluatePolicies_conjunction_witness :
  ["traffic_policy"; "service_policy"] ≠ []
  ∧ ∃ pre d post,
      ["traffic_policy"; "service_policy"] = pre ++ d :: post
      ∧ (∀ n, n ∈ pre → allows pm bad_input n = true)
      ∧ allows pm bad_input d = false
      ∧ Error (returned (EvaluatePolicies pm ["traffic_policy"; "service_policy"]
                           bad_input)).1
        = "Policy " +:+ d +:+ " denied the request"
      ∧ trace (EvaluatePolicies pm ["traffic_policy"; "service_policy"] bad_input)
        = evaluation_trace pm bad_input (pre ++ [d]).
Proof.
  split; [discriminate|].
  apply (EvaluatePolicies_conjunction pm bad_input ["traffic_policy"; "service_policy"]);
    [discriminate | vm_compute; reflexivity].
Defined.

(** C1, as stated, fails: the denial returned for Scenario D is the pair of
    [Allowed: false] and an error message; PolicyResult has no component
    that is set to the name of the denying policy. *)
Lemma EvaluatePolicies_denial_is_a_message :
  let r := (returned (EvaluatePolicies pm ["traffic_policy"; "service_policy"]
                        bad_input)).1 in
  r = {| Allowed := false; Error := "Policy traffic_policy denied the request" |}
  ∧ Error r ≠ "traffic_policy".
Proof. split; [vm_compute; reflexivity | vm_compute; discriminate]. Qed.

Lemma unknown_policy_fails_closed_witness :
  policies pm !! "audit_policy" = None
  ∧ Allowed (returned (EvaluatePolicies pm ["service_policy"; "audit_policy"]
                         good_input)).1 = false.
Proof.
  split; [vm_compute; reflexivity|].
  apply (unknown_policy_fails_closed pm "audit_policy");
    [vm_compute; reflexivity | repeat constructor].
Defined.

Lemma EvaluatePolicy_ambiguous_denies_witness :
  policies pm !! "textual_policy" = Some textual_policy
  ∧ returned (EvaluatePolicy pm "textual_policy" good_input)
    = ({| Allowed := false; Error := "Policy result is not a boolean" |}, None).
Proof.
  split; [vm_compute; reflexivity|].
  apply (EvaluatePolicy_ambiguous_denies pm "textual_policy" textual_policy good_input
           "Policy result is not a boolean");
    [vm_compute; reflexivity|].
  eapply ambiguous_not_boolean; [reflexivity | discriminate].
Defined.

Lemma ValidateRequest_no_schema_witness :
  (Some (∅ : gmap string any) = None ∨ Some (∅ : gmap string any) = Some ∅)
  ∧ ValidateRequest type_engine marshal_error (Some ∅) (decode bad_body)
    = ret {| Valid := true; Errors := []; Details := "" |}.
Proof.
  split; [by right|].
  apply (ValidateRequest_no_schema type_engine marshal_error (Some ∅) (decode bad_body)).
  right. reflexivity.
Defined.

(** Scenario C, with a body that is a JSON string where the route asks for
    an object. *)
Lemma request_validation_precedes_policies_witness :
  Method traffic_route = "POST"
  ∧ Body (post_request (JString "hello")) = WellFormed (JString "hello")
  ∧ Valid (returned (ValidateRequest type_engine marshal_error
                       (RequestSchema traffic_route) (decode (JString "hello")))) = false
  ∧ Forall (λ e, ¬ is_rego_eval e)
      (trace (handler rm traffic_route (post_request (JString "hello")))).
Proof.
  split; [reflexivity|]. split; [reflexivity|]. split; [vm_compute; reflexivity|].
  apply (request_validation_precedes_policies type_engine marshal_error
           unmarshal_traffic_request clock rm traffic_route
           (post_request (JString "hello")) (JString "hello"));
    [reflexivity | reflexivity | vm_compute; reflexivity].
Defined.

Lemma put_and_delete_are_registered_but_refused_witness :
  (Method put_route = "PUT" ∨ Method put_route = "DELETE")
  ∧ registerRoute type_engine marshal_error unmarshal_traffic_request clock
      no_conflict rm [] put_route
    = Some ([("PUT", "/v1/items", handler rm put_route)], None)
  ∧ ∀ c, handler rm put_route c =
         ((), [EvJSON http_StatusMethodNotAllowed
                 (H {[ "error" := Str "Method not allowed" ]})]).
Proof.
  split; [by left|].
  apply (put_and_delete_are_registered_but_refused type_engine marshal_error
           unmarshal_traffic_request clock no_conflict rm [] put_route).
  left. reflexivity.
Defined.

(** C8, as stated, fails: registering the PUT route on an engine that
    already holds it, as a configuration listing the route twice does, is
    refused by gin, and the call panics where the claim has it succeed. *)
Lemma registering_a_route_twice_panics :
  registerRoute type_engine marshal_error unmarshal_traffic_request clock
    no_conflict rm [] put_route
  = Some ([("PUT", "/v1/items", handler rm put_route)], None)
  ∧ registerRoute type_engine marshal_error unmarshal_traffic_request clock
      no_conflict rm [("PUT", "/v1/items", handler rm put_route)] put_route
    = None.
Proof. split; reflexivity. Qed.

(** C4, as stated, fails: the response produced for the items route is an
    object, the response schema configured on that route asks for a string,
    and handling the request records neither a check nor a log line. *)
Lemma response_schema_of_route_is_not_checked :
  let response := GET_response clock items_route in
  Valid (returned (ValidateResponse type_engine marshal_error
                     (ResponseSchema items_route) response)) = false
  ∧ trace (handler rm items_route get_request) = [EvJSON http_StatusOK response].
Proof. split; vm_compute; reflexivity. Qed.

(** Under an engine that rejects the status response, the violation is
    logged and the same response is written with status 200. *)
Lemma response_validation_is_advisory_witness :
  Allowed (returned (EvaluatePolicies pm (Policies status_route)
                       (CreatePolicyInput "GET" "/v1/status" (Some ∅) Nil))).1 = true
  ∧ trace (handleGET rejecting_engine marshal_error clock rm get_request
             status_route (Some ∅))
    = [ EvRegoEval "status_policy" (CreatePolicyInput "GET" "/v1/status" (Some ∅) Nil);
        EvSchemaValidate
          (default JNull (Marshal (H status_response_schema)))
          (Marshal_StatusResponse (GenerateStatusResponse (clock 0)));
        EvLog "Response validation failed: [(root): rejected]";
        EvJSON http_StatusOK (StatusResponseV (GenerateStatusResponse (clock 0))) ].
Proof.
  split; [vm_compute; reflexivity|].
  etrans.
  - apply (proj1 (response_validation_is_advisory rejecting_engine marshal_error
                    unmarshal_traffic_request clock rm status_route get_request
                    (Some ∅))).
    vm_compute; reflexivity.
  - vm_compute; reflexivity.
Defined.


(** Scenarios A and B. *)
Example status_request_is_served :
  trace (handler rm status_route get_request) =
  [ EvRegoEval "status_policy"
      (CreatePolicyInput "GET" "/v1/status" (Some {[ "Accept" := "*/*" ]}) Nil);
    EvSchemaValidate
      (default JNull (Marshal (H status_response_schema)))
      (Marshal_StatusResponse (GenerateStatusResponse (clock 0)));
    EvJSON http_StatusOK (StatusResponseV (GenerateStatusResponse (clock 0))) ].
Proof. vm_compute. reflexivity. Qed.

Example traffic_request_is_allowed :
  Allowed (returned (EvaluatePolicies pm (Policies traffic_route) good_input)).1 = true.
Proof. vm_compute. reflexivity. Qed.

End Examples.

(** ** Further properties of the policy engine *)

Lemma EvaluatePolicies_allowed_Forall pm input policyNames :
  Allowed (returned (EvaluatePolicies pm policyNames input)).1 = true ↔
  Forall (λ n, allows pm input n = true) policyNames.
Proof.
  rewrite EvaluatePolicies_is_range.
  destruct (EvaluatePolicies_range_spec pm input policyNames)
    as [[-> Hall] | (pre & d & post & -> & Hpre & Hd & ->)]; [done|].
  split; [done|]. intros Hall. apply Forall_app in Hall as [_ Hall].
  apply Forall_cons in Hall as [Hd' _]. by rewrite Hd in Hd'.
Qed.

Lemma EvaluatePolicy_trace_cases pm policyName input :
  trace (EvaluatePolicy pm policyName input) =
  match policies pm !! policyName with
  | Some _ => [EvRegoEval policyName input]
  | None => []
  end.
Proof.
  unfold EvaluatePolicy.
  destruct (policies pm !! policyName) as [q|]; [|done].
  rewrite trace_bind.
  destruct (q input) as [rs [e|]]; [done|].
  destruct rs as [|r0 rs]; [done|].
  destruct (Expressions r0) as [|e0 es]; [done|].
  by destruct (Value e0).
Qed.

(** X1. EvaluatePolicy allows exactly when the policy is registered, its
    evaluation reports no error, and the first expression of the first
    result is the boolean [true]; further results and expressions are not
    looked at. *)
Theorem EvaluatePolicy_allows_iff pm policyName input :
  Allowed (returned (EvaluatePolicy pm policyName input)).1 = true ↔
  ∃ preparedQuery r rs e es,
    policies pm !! policyName = Some preparedQuery
    ∧ preparedQuery input = (r :: rs, None)
    ∧ Expressions r = e :: es
    ∧ Value e = Bool true.
Proof.
  split; [apply EvaluatePolicy_allowed_inv|].
  intros (q & r & rs & e & es & Hq & Hres & Hr & Hv).
  unfold EvaluatePolicy. rewrite Hq, returned_bind, Hres, Hr, Hv. done.
Qed.

(** X2. Evaluating the concatenation of two lists of names: if the first
    list is denied, the outcome and the recorded evaluations are those of
    the first list alone; if it is allowed, the outcome is that of the
    second list and the evaluations of the second follow those of the
    first.  The decision is the conjunction of the two decisions. *)
Theorem EvaluatePolicies_app pm input l1 l2 :
  let out1 := EvaluatePolicies pm l1 input in
  let out2 := EvaluatePolicies pm l2 input in
  let out := EvaluatePolicies pm (l1 ++ l2) input in
  Allowed (returned out).1 = Allowed (returned out1).1 && Allowed (returned out2).1
  ∧ (Allowed (returned out1).1 = false → out = out1)
  ∧ (Allowed (returned out1).1 = true →
       returned out = returned out2 ∧ trace out = trace out1 ++ trace out2).
Proof.
  cbv zeta. rewrite !EvaluatePolicies_is_range.
  induction l1 as [|n l1 IH].
  - simpl. split_and!; [done | done |]. intros _. by destruct (EvaluatePolicies_range pm l2 input).
  - rewrite <-app_comm_cons, !EvaluatePolicies_range_cons.
    destruct (allows pm input n); [|done].
    unfold returned, trace in *. simpl.
    destruct IH as (Hdec & Hdeny & Hallow). split_and!.
    + done.
    + intros Hd. by rewrite (Hdeny Hd).
    + intros Ha. destruct (Hallow Ha) as [Hr Ht]. split; [done|].
      by rewrite Ht, app_assoc.
Qed.

(** X3. The decision of EvaluatePolicies depends only on which names occur
    in the list: two lists with the same members, in any order and with any
    repetitions, are both allowed or both denied. *)
Theorem EvaluatePolicies_decision_by_members pm input l1 l2 :
  (∀ n, n ∈ l1 ↔ n ∈ l2) →
  Allowed (returned (EvaluatePolicies pm l1 input)).1
  = Allowed (returned (EvaluatePolicies pm l2 input)).1.
Proof.
  intros Hmem.
  pose proof (EvaluatePolicies_allowed_Forall pm input l1) as H1.
  pose proof (EvaluatePolicies_allowed_Forall pm input l2) as H2.
  assert (Forall (λ n, allows pm input n = true) l1
          ↔ Forall (λ n, allows pm input n = true) l2) as Hiff.
  { rewrite !Forall_forall. split; intros Hall n Hn; apply Hall, Hmem, Hn. }
  destruct (Allowed (returned (EvaluatePolicies pm l1 input)).1),
           (Allowed (returned (EvaluatePolicies pm l2 input)).1); try done.
  - symmetry. apply H2, Hiff, H1. done.
  - apply H1, Hiff, H2. done.
Qed.

(** X4. What EvaluatePolicies returns depends only on the decisions of the
    named policies: the reason a policy denies (not registered, engine
    error, no result, not a boolean, or [false]) never reaches the combined
    outcome. *)
Theorem EvaluatePolicies_hides_diagnostics pm pm' input input' policyNames :
  (∀ n, n ∈ policyNames → allows pm input n = allows pm' input' n) →
  returned (EvaluatePolicies pm policyNames input)
  = returned (EvaluatePolicies pm' policyNames input').
Proof.
  rewrite !EvaluatePolicies_is_range.
  induction policyNames as [|n rest IH]; intros Hsame; [done|].
  rewrite !EvaluatePolicies_range_cons.
  rewrite <-(Hsame n) by (by left).
  destruct (allows pm input n); [|done].
  unfold returned in *. simpl. apply IH. intros m Hm. apply Hsame. by right.
Qed.

Lemma evaluation_trace_events pm input l :
  Forall (λ e, ∃ n, e = EvRegoEval n input ∧ n ∈ l
                    ∧ is_Some (policies pm !! n))
    (evaluation_trace pm input l)
  ∧ (length (evaluation_trace pm input l) ≤ length l)%nat.
Proof.
  induction l as [|n l [IHf IHl]]; [split; [constructor | done]|].
  unfold evaluation_trace in *. simpl. rewrite EvaluatePolicy_trace_cases.
  assert (Forall (λ e, ∃ m, e = EvRegoEval m input ∧ m ∈ n :: l
                            ∧ is_Some (policies pm !! m))
            (flat_map (λ n, trace (EvaluatePolicy pm n input)) l)) as Hrest.
  { eapply Forall_impl; [exact IHf|].
    intros e (m & -> & Hm & Hs). exists m. split_and!; [done | by right | done]. }
  destruct (policies pm !! n) as [q|] eqn:Hq; simpl.
  - split; [|lia]. constructor; [|done].
    exists n. split_and!; [done | by left | by rewrite Hq].
  - split; [done | lia].
Qed.

Lemma EvaluatePolicies_trace_events pm input policyNames :
  Forall (λ e, ∃ n, e = EvRegoEval n input ∧ n ∈ policyNames
                    ∧ is_Some (policies pm !! n))
    (trace (EvaluatePolicies pm policyNames input))
  ∧ (length (trace (EvaluatePolicies pm policyNames input)) ≤ length policyNames)%nat.
Proof.
  rewrite EvaluatePolicies_is_range.
  destruct (EvaluatePolicies_range_spec pm input policyNames)
    as [[-> _] | (pre & d & post & -> & _ & _ & ->)];
    [apply evaluation_trace_events|].
  unfold trace. simpl.
  destruct (evaluation_trace_events pm input (pre ++ [d])) as [Hf Hl]. split.
  - eapply Forall_impl; [exact Hf|].
    intros e (m & -> & Hm & Hs). exists m. split_and!; [done | | done].
    rewrite elem_of_app in Hm. rewrite elem_of_app, elem_of_cons.
    rewrite list_elem_of_singleton in Hm. tauto.
  - rewrite !length_app in *. simpl in *. lia.
Qed.

(** X5. EvaluatePolicies calls the engine only for names of the list that
    are registered, always on the input it was given, and at most once per
    position of the list. *)
Theorem EvaluatePolicies_engine_calls pm input policyNames :
  Forall (λ e, ∃ n, e = EvRegoEval n input ∧ n ∈ policyNames
                    ∧ is_Some (policies pm !! n))
    (trace (EvaluatePolicies pm policyNames input))
  ∧ (length (trace (EvaluatePolicies pm policyNames input)) ≤ length policyNames)%nat.
Proof. apply EvaluatePolicies_trace_events. Qed.

(** ** Loading policies *)

Section LoadingProperties.

Variable ioutil_ReadDir : string → list FileInfo * option error.
Variable ioutil_ReadFile : string → string * option error.
Variable filepath_Join : string → string → string.
Variable rego_PrepareForEval :
  string → string → string → PreparedEvalQuery * option error.

Local Abbreviation loadPolicy' := (loadPolicy ioutil_ReadFile rego_PrepareForEval).
Local Abbreviation LoadPolicies_range' :=
  (LoadPolicies_range ioutil_ReadFile filepath_Join rego_PrepareForEval).
Local Abbreviation LoadPolicies' :=
  (LoadPolicies ioutil_ReadDir ioutil_ReadFile filepath_Join rego_PrepareForEval).
Local Abbreviation loads' := (loads ioutil_ReadFile filepath_Join rego_PrepareForEval).

(** One iteration of the loop: the manager it hands to the next one. *)
Lemma LoadPolicies_range_cons pm policiesDir file rest :
  ∃ pm1,
    returned (LoadPolicies_range' pm policiesDir (file :: rest))
    = returned (LoadPolicies_range' pm1 policiesDir rest)
    ∧ ((loads' policiesDir file = true
        ∧ ∃ q, policies pm1 = <[TrimSuffix (Name file) ".rego" := q]> (policies pm))
       ∨ (loads' policiesDir file = false ∧ pm1 = pm)).
Proof.
  cbn [LoadPolicies_range]. unfold loads, loadPolicy.
  destruct (IsDir file); cbn [negb orb andb]; [eauto|].
  destruct (HasSuffix (Name file) ".rego"); cbn [negb orb andb]; [|eauto].
  destruct (ioutil_ReadFile _) as [bytes [e|]]; cbv beta iota zeta.
  { exists pm. rewrite returned_bind. eauto. }
  destruct (rego_PrepareForEval _ _ _) as [q [e|]]; cbv beta iota zeta.
  - exists pm. rewrite returned_bind. split; [done|]. right. split; [|done].
    by apply bool_decide_eq_false_2.
  - eexists. rewrite returned_bind. split; [done|]. left.
    split; [by apply bool_decide_eq_true_2 | by exists q].
Qed.

Lemma LoadPolicies_range_lookup pm policiesDir files k :
  let pm' := returned (LoadPolicies_range' pm policiesDir files) in
  (is_Some (policies pm' !! k) ↔
     is_Some (policies pm !! k)
     ∨ ∃ file, file ∈ files ∧ loads' policiesDir file = true
               ∧ TrimSuffix (Name file) ".rego" = k)
  ∧ ((∀ file, file ∈ files → loads' policiesDir file = true →
              TrimSuffix (Name file) ".rego" ≠ k) →
     policies pm' !! k = policies pm !! k).
Proof.
  revert pm. induction files as [|file rest IH]; intros pm; cbv zeta.
  { split; [|done]. split; [by left|]. intros [?|(f & Hf & _)]; [done|].
    by apply elem_of_nil in Hf. }
  destruct (LoadPolicies_range_cons pm policiesDir file rest)
    as (pm1 & -> & Hstep).
  destruct (IH pm1) as [IHdom IHsame]. split.
  - rewrite IHdom. destruct Hstep as [[Hl [q Hq]] | [Hl ->]].
    + rewrite Hq, lookup_insert_is_Some. split.
      * intros [[<- | [_ Hk]] | (f & Hf & Hlf & Hn)].
        -- right. exists file. split_and!; [left | done | done].
        -- by left.
        -- right. exists f. split_and!; [by right | done | done].
      * intros [Hk | (f & Hf & Hlf & Hn)].
        -- left. destruct (decide (TrimSuffix (Name file) ".rego" = k)); [by left|].
           by right.
        -- apply elem_of_cons in Hf as [-> | Hf]; [by left; left|].
           right. by exists f.
    + split.
      * intros [Hk | (f & Hf & Hlf & Hn)]; [by left|].
        right. exists f. split_and!; [by right | done | done].
      * intros [Hk | (f & Hf & Hlf & Hn)]; [by left|].
        apply elem_of_cons in Hf as [-> | Hf]; [congruence|].
        right. by exists f.
  - intros Hno. rewrite IHsame.
    + destruct Hstep as [[Hl [q Hq]] | [Hl ->]]; [|done].
      rewrite Hq, lookup_insert_ne; [done|]. apply Hno; [left | done].
    + intros f Hf. apply Hno. by right.
Qed.

Lemma LoadPolicies_range_trace pm policiesDir files :
  Forall is_log (trace (LoadPolicies_range' pm policiesDir files))
  ∧ length (trace (LoadPolicies_range' pm policiesDir files))
    = length (filter (λ file, negb (IsDir file) && HasSuffix (Name file) ".rego" = true)
                files).
Proof.
  revert pm. induction files as [|file rest IH]; intros pm; [by split|].
  cbn [LoadPolicies_range]. rewrite filter_cons.
  destruct (IsDir file); cbn [negb orb andb].
  { rewrite decide_False by done. apply IH. }
  destruct (HasSuffix (Name file) ".rego"); cbn [negb orb andb].
  2: { rewrite decide_False by done. apply IH. }
  rewrite decide_True by done.
  destruct (loadPolicy' pm _ _) as [pm1 [e|]];
    rewrite trace_bind; destruct (IH pm1) as [IHf IHl]; simpl;
    (split; [by constructor | by rewrite IHl]).
Qed.

(** X6. LoadPolicies returns an error exactly when the directory cannot be
    read, and then leaves the policy manager as it was and logs nothing.  A
    policy file that cannot be read or compiled never makes it fail. *)
Theorem LoadPolicies_error_iff pm policiesDir :
  ((returned (LoadPolicies' pm policiesDir)).2 = None
   ↔ (ioutil_ReadDir policiesDir).2 = None)
  ∧ (∀ e, (ioutil_ReadDir policiesDir).2 = Some e →
          LoadPolicies' pm policiesDir
          = ret (pm, Some ("failed to read policies directory: " +:+ e))).
Proof.
  unfold LoadPolicies. destruct (ioutil_ReadDir policiesDir) as [files [e|]]; simpl.
  - split; [done|]. by intros ? [= ->].
  - rewrite returned_bind. done.
Qed.

(** X7. After LoadPolicies has read the directory, the loaded policies are
    those loaded before together with the names, without the [.rego]
    suffix, of the entries that are not directories, end in [.rego], can be
    read and compile.  A name that no such entry yields keeps the query it
    had, or stays absent. *)
Theorem LoadPolicies_loaded_names pm policiesDir files k :
  ioutil_ReadDir policiesDir = (files, None) →
  let pm' := (returned (LoadPolicies' pm policiesDir)).1 in
  (k ∈ ListLoadedPolicies pm' ↔
     k ∈ ListLoadedPolicies pm
     ∨ ∃ file, file ∈ files ∧ loads' policiesDir file = true
               ∧ TrimSuffix (Name file) ".rego" = k)
  ∧ ((∀ file, file ∈ files → loads' policiesDir file = true →
              TrimSuffix (Name file) ".rego" ≠ k) →
     policies pm' !! k = policies pm !! k).
Proof.
  intros Hdir. unfold LoadPolicies, ListLoadedPolicies. rewrite Hdir.
  cbv zeta. rewrite returned_bind. simpl. rewrite !elem_of_dom.
  apply LoadPolicies_range_lookup.
Qed.

(** X8. LoadPolicies records log lines only, one for each directory entry
    that is not a directory and ends in [.rego], whether it loaded or not. *)
Theorem LoadPolicies_logs pm policiesDir files :
  ioutil_ReadDir policiesDir = (files, None) →
  Forall is_log (trace (LoadPolicies' pm policiesDir))
  ∧ length (trace (LoadPolicies' pm policiesDir))
    = length (filter (λ file, negb (IsDir file) && HasSuffix (Name file) ".rego" = true)
                files).
Proof.
  intros Hdir. unfold LoadPolicies. rewrite Hdir. rewrite trace_bind. simpl.
  rewrite app_nil_r. apply LoadPolicies_range_trace.
Qed.

(** X9. A policy that was not loaded before and whose file is skipped by
    LoadPolicies fails closed afterwards: every list of names that contains
    it is denied by EvaluatePolicies on the resulting manager. *)
Theorem skipped_policy_fails_closed pm policiesDir files k policyNames input :
  ioutil_ReadDir policiesDir = (files, None) →
  policies pm !! k = None →
  (∀ file, file ∈ files → loads' policiesDir file = true →
           TrimSuffix (Name file) ".rego" ≠ k) →
  k ∈ policyNames →
  Allowed (returned (EvaluatePolicies (returned (LoadPolicies' pm policiesDir)).1
                       policyNames input)).1 = false.
Proof.
  intros Hdir Hnone Hskip Hin.
  unfold LoadPolicies. rewrite Hdir. rewrite returned_bind. simpl.
  destruct (LoadPolicies_range_lookup pm policiesDir files k) as [_ Hsame].
  specialize (Hsame Hskip). rewrite Hnone in Hsame.
  apply not_true_is_false. rewrite EvaluatePolicies_allowed_Forall, Forall_forall.
  intros Hall. apply Hall in Hin. by rewrite unknown_policy_denies in Hin.
Qed.

End LoadingProperties.

(** ** Registering routes *)

Section RegistrationProperties.

Variable gojsonschema_Validate : json → json → gojsonschema_Result * option error.
Variable Marshal_error : any → error.
Variable Unmarshal_TrafficRequest : json → TrafficRequest.
Variable time_Now : nat → Time.
Variable gin_conflict : list (string * string) → string → string → bool.
Variable ioutil_ReadFile : string → string * option error.
Variable Unmarshal_RoutesConfig : string → list RouteConfig * option error.

Local Abbreviation createHandler' :=
  (createHandler gojsonschema_Validate Marshal_error Unmarshal_TrafficRequest time_Now).
Local Abbreviation registerRoute' :=
  (registerRoute gojsonschema_Validate Marshal_error Unmarshal_TrafficRequest time_Now
     gin_conflict).
Local Abbreviation RegisterRoutes_range' :=
  (RegisterRoutes_range gojsonschema_Validate Marshal_error
     Unmarshal_TrafficRequest time_Now gin_conflict).
Local Abbreviation RegisterRoutes' :=
  (RegisterRoutes gojsonschema_Validate Marshal_error Unmarshal_TrafficRequest time_Now
     gin_conflict).
Local Abbreviation LoadConfig' := (LoadConfig ioutil_ReadFile Unmarshal_RoutesConfig).

(** The registration made for a route. *)
Local Abbreviation registration rm :=
  (λ route : RouteConfig, (Method route, RouteName route, createHandler' rm route)).

(** The registrations made for the routes of a list that have a supported
    method. *)
Local Abbreviation registrations rm routes :=
  (registration rm <$> filter (λ r, supported_method (Method r) = true) routes).

(** Whether gin accepts the registration of a route. *)
Local Abbreviation accepts router route :=
  (gin_accepts gin_conflict router (Method route) (RouteName route)).

Lemma registerRoute_cases rm router route :
  registerRoute' rm router route =
  if supported_method (Method route) then
    if accepts router route then Some (router ++ [registration rm route], None)
    else None
  else Some (router, Some ("unsupported HTTP method: " +:+ Method route)).
Proof.
  unfold registerRoute, gin_Handle, supported_method.
  destruct (String.eqb_spec (Method route) "GET") as [Hg|Hg].
  { rewrite bool_decide_eq_true_2 by (rewrite Hg; set_solver).
    rewrite Hg. by destruct (gin_accepts _ _ _ _). }
  destruct (String.eqb_spec (Method route) "POST") as [Hp|Hp].
  { rewrite bool_decide_eq_true_2 by (rewrite Hp; set_solver).
    rewrite Hp. by destruct (gin_accepts _ _ _ _). }
  destruct (String.eqb_spec (Method route) "PUT") as [Hu|Hu].
  { rewrite bool_decide_eq_true_2 by (rewrite Hu; set_solver).
    rewrite Hu. by destruct (gin_accepts _ _ _ _). }
  destruct (String.eqb_spec (Method route) "DELETE") as [Hd|Hd].
  { rewrite bool_decide_eq_true_2 by (rewrite Hd; set_solver).
    rewrite Hd. by destruct (gin_accepts _ _ _ _). }
  rewrite bool_decide_eq_false_2; [done|].
  rewrite !elem_of_cons, elem_of_nil. tauto.
Qed.

Lemma duplicate_not_accepted router method path :
  (method, path) ∈ registered router →
  gin_accepts gin_conflict router method path = false.
Proof.
  intros Hin. unfold gin_accepts. by rewrite bool_decide_eq_false_2 by tauto.
Qed.

(** X10. registerRoute reports a method other than GET, POST, PUT and
    DELETE, spelled so, as unsupported, and then changes nothing and does
    not panic.  For these four methods it never returns an error: when gin
    accepts the method and name it adds one registration after those
    already made and returns nil, and when gin refuses them, as it does for
    a method and name already registered, the call panics. *)
Theorem registerRoute_supported_iff rm router route :
  (Method route ∉ ["GET"; "POST"; "PUT"; "DELETE"] →
     registerRoute' rm router route
     = Some (router, Some ("unsupported HTTP method: " +:+ Method route)))
  ∧ (Method route ∈ ["GET"; "POST"; "PUT"; "DELETE"] →
       registerRoute' rm router route
       = if accepts router route then Some (router ++ [registration rm route], None)
         else None)
  ∧ (Method route ∈ ["GET"; "POST"; "PUT"; "DELETE"] →
     (Method route, RouteName route) ∈ registered router →
     registerRoute' rm router route = None).
Proof.
  rewrite registerRoute_cases. unfold supported_method.
  destruct (decide (Method route ∈ ["GET"; "POST"; "PUT"; "DELETE"])) as [Hin|Hout].
  - rewrite bool_decide_eq_true_2 by done. split_and!; [done | done |].
    intros _ Hdup. by rewrite duplicate_not_accepted.
  - rewrite bool_decide_eq_false_2 by done. done.
Qed.

Lemma registrations_cons_supported rm route pre :
  supported_method (Method route) = true →
  registrations rm (route :: pre) = registration rm route :: registrations rm pre.
Proof. intros Hs. by rewrite filter_cons, decide_True. Qed.

Lemma registrations_cons_unsupported rm route pre :
  supported_method (Method route) = false →
  registrations rm (route :: pre) = registrations rm pre.
Proof. intros Hs. rewrite filter_cons, decide_False; [done|]. by rewrite Hs. Qed.

(** The loop, by its two outcomes. *)
Lemma RegisterRoutes_range_spec rm router routes :
  match returned (RegisterRoutes_range' rm router routes) with
  | Some router' =>
      router' = router ++ registrations rm routes
      ∧ (∀ pre route post,
           routes = pre ++ route :: post →
           supported_method (Method route) = true →
           accepts (router ++ registrations rm pre) route = true)
      ∧ length (trace (RegisterRoutes_range' rm router routes)) = length routes
  | None =>
      ∃ pre route post,
        routes = pre ++ route :: post
        ∧ supported_method (Method route) = true
        ∧ accepts (router ++ registrations rm pre) route = false
        ∧ length (trace (RegisterRoutes_range' rm router routes)) = length pre
  end
  ∧ Forall is_log (trace (RegisterRoutes_range' rm router routes)).
Proof.
  revert router. induction routes as [|route rest IH]; intros router.
  { simpl. split; [|done]. split_and!; [by rewrite app_nil_r | | done].
    intros pre route post Heq. by destruct pre. }
  cbn [RegisterRoutes_range]. rewrite registerRoute_cases.
  destruct (supported_method (Method route)) eqn:Hs.
  - destruct (accepts router route) eqn:Ha.
    + rewrite returned_bind, trace_bind.
      destruct (IH (router ++ [registration rm route])) as [IHr IHf].
      split; [|by constructor].
      destruct (returned (RegisterRoutes_range' rm _ rest)) as [router'|].
      * destruct IHr as (-> & Hacc & Hl). split_and!.
        -- by rewrite registrations_cons_supported, <-app_assoc.
        -- intros pre r post Heq Hr. destruct pre as [|p pre]; simplify_eq/=.
           { by rewrite app_nil_r. }
           rewrite registrations_cons_supported by done.
           rewrite cons_middle, app_assoc. by eapply Hacc.
        -- simpl. by rewrite Hl.
      * destruct IHr as (pre & r & post & -> & Hr & Hacc & Hl).
        exists (route :: pre), r, post. split_and!; [done | done | |].
        -- rewrite registrations_cons_supported by done.
           by rewrite cons_middle, app_assoc.
        -- simpl. by rewrite Hl.
    + split; [|constructor]. exists [], route, rest.
      split_and!; [done | done | | done]. by rewrite app_nil_r.
  - rewrite returned_bind, trace_bind.
    destruct (IH router) as [IHr IHf]. split; [|by constructor].
    destruct (returned (RegisterRoutes_range' rm router rest)) as [router'|].
    + destruct IHr as (-> & Hacc & Hl). split_and!.
      * by rewrite registrations_cons_unsupported.
      * intros pre r post Heq Hr. destruct pre as [|p pre]; simplify_eq/=.
        { congruence. }
        rewrite registrations_cons_unsupported by done. by eapply Hacc.
      * simpl. by rewrite Hl.
    + destruct IHr as (pre & r & post & -> & Hr & Hacc & Hl).
      exists (route :: pre), r, post. split_and!; [done | done | |].
      * by rewrite registrations_cons_unsupported.
      * simpl. by rewrite Hl.
Qed.

Lemma RegisterRoutes_with_config rm router routes :
  config rm = Some routes →
  returned (RegisterRoutes' rm router)
  = (λ r, (r, None)) <$> returned (RegisterRoutes_range' rm router routes)
  ∧ trace (RegisterRoutes' rm router) = trace (RegisterRoutes_range' rm router routes).
Proof.
  intros Hc. unfold RegisterRoutes. rewrite Hc, returned_bind, trace_bind.
  simpl. by rewrite app_nil_r.
Qed.

(** X11. Without a loaded configuration RegisterRoutes returns the error
    [no configuration loaded] and does nothing.  With one, it goes through
    the routes in configuration order and logs one line per route: it keeps
    the registrations already made, adds one for each route with a
    supported method and skips the others.  It returns, with a nil error,
    exactly when gin accepts each of these registrations at its turn; at the
    first one gin refuses it panics, after the log lines of the routes
    before it. *)
Theorem RegisterRoutes_spec rm router :
  match config rm with
  | None =>
      RegisterRoutes' rm router = ret (Some (router, Some "no configuration loaded"))
  | Some routes =>
      match returned (RegisterRoutes' rm router) with
      | Some (router', err) =>
          err = None
          ∧ router' = router ++ registrations rm routes
          ∧ (∀ pre route post,
               routes = pre ++ route :: post →
               supported_method (Method route) = true →
               accepts (router ++ registrations rm pre) route = true)
          ∧ length (trace (RegisterRoutes' rm router)) = length routes
      | None =>
          ∃ pre route post,
            routes = pre ++ route :: post
            ∧ supported_method (Method route) = true
            ∧ accepts (router ++ registrations rm pre) route = false
            ∧ length (trace (RegisterRoutes' rm router)) = length pre
      end
      ∧ Forall is_log (trace (RegisterRoutes' rm router))
  end.
Proof.
  destruct (config rm) as [routes|] eqn:Hc; [|by unfold RegisterRoutes; rewrite Hc].
  destruct (RegisterRoutes_with_config rm router routes Hc) as [-> ->].
  destruct (RegisterRoutes_range_spec rm router routes) as [Hr Hf].
  split; [|done].
  destruct (returned (RegisterRoutes_range' rm router routes)) as [router'|]; simpl.
  - destruct Hr as (-> & Hacc & Hl). done.
  - done.
Qed.

(** X12. LoadConfig never touches the policy manager.  When the file cannot
    be read or parsed it returns an error, leaves the route manager as it
    was and logs nothing, so that RegisterRoutes on a new route manager
    still fails with [no configuration loaded].  When it succeeds it
    installs the parsed routes and logs their number; RegisterRoutes is
    then the registration loop over these routes, and returns a nil error
    unless gin panics. *)
Theorem LoadConfig_then_RegisterRoutes pm configPath router :
  let out := LoadConfig' (NewRouteManager pm) configPath in
  let rm' := (returned out).1 in
  let registered := RegisterRoutes' rm' router in
  policyManager rm' = pm
  ∧ match (returned out).2 with
    | Some _ =>
        rm' = NewRouteManager pm ∧ trace out = []
        ∧ registered = ret (Some (router, Some "no configuration loaded"))
    | None =>
        ∃ configBytes routes,
          ioutil_ReadFile configPath = (configBytes, None)
          ∧ Unmarshal_RoutesConfig configBytes = (routes, None)
          ∧ GetConfig rm' = Some routes
          ∧ trace out = [EvLog ("Loaded " +:+ pretty (length routes)
                                +:+ " routes from configuration")]
          ∧ returned registered
            = (λ r, (r, None)) <$> returned (RegisterRoutes_range' rm' router routes)
    end.
Proof.
  cbv zeta. unfold LoadConfig.
  destruct (ioutil_ReadFile configPath) as [configBytes [e|]] eqn:Hread; [done|].
  destruct (Unmarshal_RoutesConfig configBytes) as [routes [e|]] eqn:Hparse; [done|].
  rewrite returned_bind. simpl. split; [done|].
  exists configBytes, routes. split_and!; [done | done | done | done |].
  by apply RegisterRoutes_with_config.
Qed.

End RegistrationProperties.

(** ** Further properties of the schema validator *)

Lemma no_schema_iff (schema : option (gmap string any)) :
  bool_decide (schema = None) || (size (default ∅ schema) =? 0)%nat = true
  ↔ schema = None ∨ schema = Some ∅.
Proof.
  destruct schema as [m|].
  - rewrite bool_decide_eq_false_2 by done.
    change (default ∅ (Some m)) with m. rewrite orb_false_l.
    rewrite Nat.eqb_eq, map_size_empty_iff. split; [by intros ->; right|].
    by intros [?|[= ->]].
  - rewrite bool_decide_eq_true_2 by done. split; [by left | done].
Qed.

(** Marshal after decode gives back the JSON text. *)
Lemma json_size_member m k v :
  m !! k = Some v → (json_size v < json_size (JObject m))%nat.
Proof.
  intros Hk. cbn [json_size].
  rewrite <-(insert_delete_id m k v) by done.
  rewrite map_fold_insert_L.
  - lia.
  - intros. lia.
  - apply lookup_delete_eq.
Qed.

Lemma json_size_element xs x :
  x ∈ xs → (json_size x < json_size (JArray xs))%nat.
Proof.
  intros Hx. cbn [json_size].
  pose proof (sum_list_with_in x json_size xs Hx). lia.
Qed.

Lemma all_some_fmap_Some {A} (m : gmap string A) : all_some (Some <$> m) = Some m.
Proof.
  unfold all_some. rewrite decide_True.
  - f_equal. apply map_eq. intros i. rewrite lookup_omap, lookup_fmap.
    by destruct (m !! i).
  - apply map_Forall_fmap. intros i x _. simpl. eauto.
Qed.

Lemma Marshal_decode j : Marshal (decode j) = Some j.
Proof.
  remember (json_size j) as n eqn:Hn. revert j Hn.
  induction (lt_wf n) as [n _ IH]. intros j ->.
  destruct j as [| | | |xs|m]; try done.
  - cbn [decode Marshal].
    assert (mapM Marshal (decode <$> xs) = Some xs) as ->; [|done].
    apply mapM_Some_2. apply Forall2_fmap_l, Forall_Forall2_diag, Forall_forall.
    intros x Hx. eapply IH; [|done]. by apply json_size_element.
  - cbn [decode Marshal].
    assert (Marshal <$> (decode <$> m) = Some <$> m) as ->.
    { apply map_eq. intros i. rewrite !lookup_fmap.
      destruct (m !! i) as [v|] eqn:Hi; [|done]. simpl. f_equal.
      eapply IH; [|done]. by eapply json_size_member. }
    by rewrite all_some_fmap_Some.
Qed.

Section ValidatorProperties.

Variable gojsonschema_Validate : json → json → gojsonschema_Result * option error.
Variable Marshal_error : any → error.

Local Abbreviation ValidateRequest' := (ValidateRequest gojsonschema_Validate Marshal_error).

(** ValidateRequest when a schema is present, by what can be encoded. *)
Lemma ValidateRequest_with_schema schema data :
  schema ≠ None → schema ≠ Some ∅ →
  ValidateRequest' schema data =
  match Marshal (Map schema), Marshal data with
  | None, _ =>
      ret {| Valid := false;
             Errors := ["Invalid schema: " +:+ Marshal_error (Map schema)];
             Details := "" |}
  | Some _, None =>
      ret {| Valid := false;
             Errors := ["Invalid data: " +:+ Marshal_error data];
             Details := "" |}
  | Some schemaBytes, Some dataBytes =>
      (match gojsonschema_Validate schemaBytes dataBytes with
       | (_, Some e) =>
           {| Valid := false; Errors := ["Validation error: " +:+ e]; Details := "" |}
       | (result, None) =>
           if res_Valid result then {| Valid := true; Errors := []; Details := "" |}
           else {| Valid := false;
                   Errors := res_Errors result;
                   Details := "Validation failed with "
                              +:+ pretty (length (res_Errors result)) +:+ " errors" |}
       end,
       [EvSchemaValidate schemaBytes dataBytes])
  end.
Proof.
  intros Hn He. unfold ValidateRequest.
  destruct (bool_decide (schema = None) || _) eqn:Hno.
  { apply no_schema_iff in Hno as [?|?]; done. }
  destruct (Marshal (Map schema)) as [sb|]; [|done].
  destruct (Marshal data) as [db|]; [|done].
  destruct (gojsonschema_Validate sb db) as [res [e|]]; [done|].
  by destruct (res_Valid res).
Qed.

Lemma schema_cases (schema : option (gmap string any)) :
  (schema = None ∨ schema = Some ∅) ∨ (schema ≠ None ∧ schema ≠ Some ∅).
Proof.
  destruct schema as [m|]; [|by left; left].
  destruct (decide (m = ∅)) as [->|Hm]; [by left; right|].
  right. split; [done|]. by intros [= ->].
Qed.

Lemma ValidateRequest_without_schema schema data :
  schema = None ∨ schema = Some ∅ →
  ValidateRequest' schema data = ret {| Valid := true; Errors := []; Details := "" |}.
Proof. by intros [-> | ->]. Qed.

(** X13. ValidateRequest reports a valid value exactly when there is no
    schema (nil or empty), or when the schema and the value both encode and
    the engine, called on the two encodings, returns no error and a valid
    result. *)
Theorem ValidateRequest_valid_iff schema data :
  Valid (returned (ValidateRequest' schema data)) = true ↔
  (schema = None ∨ schema = Some ∅)
  ∨ ∃ schemaBytes dataBytes result,
      Marshal (Map schema) = Some schemaBytes
      ∧ Marshal data = Some dataBytes
      ∧ gojsonschema_Validate schemaBytes dataBytes = (result, None)
      ∧ res_Valid result = true.
Proof.
  destruct (schema_cases schema) as [Hno | [Hn He]].
  { rewrite ValidateRequest_without_schema by done. split; [by left | done]. }
  rewrite ValidateRequest_with_schema by done. split.
  - intros Hv. right.
    destruct (Marshal (Map schema)) as [sb|]; [|done].
    destruct (Marshal data) as [db|]; [|done].
    destruct (gojsonschema_Validate sb db) as [res [e|]] eqn:Hres; [done|].
    exists sb, db, res. split_and!; try done. by destruct (res_Valid res).
  - intros [[?|?] | (sb & db & res & -> & -> & -> & Hv)]; [done | done |].
    unfold returned. simpl. by rewrite Hv.
Qed.

(** X14. ValidateRequest calls the schema engine at most once, and only on
    the encodings of the schema and of the value; when either of them
    cannot be encoded the engine is not called and the value is reported
    invalid. *)
Theorem ValidateRequest_engine_calls schema data :
  let v := ValidateRequest' schema data in
  (length (trace v) ≤ 1)%nat
  ∧ (∀ e, e ∈ trace v →
          ∃ schemaBytes dataBytes,
            e = EvSchemaValidate schemaBytes dataBytes
            ∧ Marshal (Map schema) = Some schemaBytes
            ∧ Marshal data = Some dataBytes)
  ∧ (schema ≠ None → schema ≠ Some ∅ →
     Marshal (Map schema) = None ∨ Marshal data = None →
     trace v = [] ∧ Valid (returned v) = false).
Proof.
  cbv zeta. destruct (schema_cases schema) as [Hno | [Hn He]].
  { rewrite ValidateRequest_without_schema by done. split_and!.
    - simpl. lia.
    - intros e He. by apply elem_of_nil in He.
    - by destruct Hno as [-> | ->]. }
  rewrite ValidateRequest_with_schema by done.
  destruct (Marshal (Map schema)) as [sb|]; [destruct (Marshal data) as [db|]|].
  - split_and!.
    + simpl. lia.
    + intros e Hin. apply list_elem_of_singleton in Hin as ->. by exists sb, db.
    + by intros _ _ [?|?].
  - split_and!; [simpl; lia | intros e Hin; by apply elem_of_nil in Hin | done].
  - split_and!; [simpl; lia | intros e Hin; by apply elem_of_nil in Hin | done].
Qed.

(** X15. The results of ValidateRequest are well formed: a valid result
    carries no error and no details; details, when present, count the
    errors listed; and an invalid result lists at least one error, as long
    as the engine lists one whenever it reports a document invalid. *)
Theorem ValidateRequest_result_invariant schema data :
  let r := returned (ValidateRequest' schema data) in
  (Valid r = true → Errors r = [] ∧ Details r = "")
  ∧ (Details r = ""
     ∨ Details r = "Validation failed with " +:+ pretty (length (Errors r)) +:+ " errors")
  ∧ ((∀ s d result, gojsonschema_Validate s d = (result, None) →
                    res_Valid result = false → res_Errors result ≠ []) →
     Valid r = false → Errors r ≠ []).
Proof.
  cbv zeta. destruct (schema_cases schema) as [Hno | [Hn He]].
  { rewrite ValidateRequest_without_schema by done. split_and!; [done | by left | done]. }
  rewrite ValidateRequest_with_schema by done.
  destruct (Marshal (Map schema)) as [sb|]; [destruct (Marshal data) as [db|]|];
    try (split_and!; [done | by left | done]).
  destruct (gojsonschema_Validate sb db) as [res [e|]] eqn:Hres;
    [split_and!; [done | by left | done]|].
  destruct (res_Valid res) eqn:Hv; [split_and!; [done | by left | done]|].
  split_and!; [done | by right |].
  intros Hengine _. by apply (Hengine sb db res).
Qed.


End ValidatorProperties.

(** ** Formatting validation errors, and the generated responses *)

Lemma substring_all s : String.substring 0 (String.length s) s = s.
Proof. induction s as [|a s IH]; simpl; [done | by rewrite IH]. Qed.

Lemma prefix_append p s : String.prefix p (p +:+ s) = true.
Proof.
  induction p as [|a p IH]; [by destruct s|].
  simpl. by destruct (ascii_dec a a).
Qed.

Lemma substring_append p s :
  String.substring (String.length p) (String.length s) (p +:+ s) = s.
Proof.
  induction p as [|a p IH]; [|done].
  change ("" +:+ s) with s. apply substring_all.
Qed.

Lemma TrimPrefix_append p s : TrimPrefix (p +:+ s) p = s.
Proof.
  unfold TrimPrefix, HasPrefix. rewrite prefix_append, length_append.
  replace (String.length p + String.length s - String.length p)%nat
    with (String.length s) by lia.
  apply substring_append.
Qed.

Lemma TrimPrefix_root m : TrimPrefix ("(root): " +:+ m) "(root): " = m.
Proof. apply TrimPrefix_append. Qed.

Lemma TrimPrefix_absent s prefix : HasPrefix s prefix = false → TrimPrefix s prefix = s.
Proof. intros Hp. unfold TrimPrefix. by rewrite Hp. Qed.

Lemma Join_nil_length (l : list string) :
  (length l =? 0)%nat = true → Join l "; " = "".
Proof. by destruct l. Qed.

(** X17. FormatValidationErrors joins the messages with [; ] after removing
    the engine's [(root): ] prefix: for messages that do not themselves
    start with [I[0,], the errors [(root): m1], ..., [(root): mk] are
    formatted as [m1; ...; mk], and messages without the prefix are joined
    unchanged.  No error at all gives the empty string. *)
Theorem FormatValidationErrors_strips_root msgs :
  Forall (λ m, HasPrefix m "I[0," = false) msgs →
  FormatValidationErrors (String.append "(root): " <$> msgs) = Join msgs "; "
  ∧ (Forall (λ m, HasPrefix m "(root): " = false) msgs →
     FormatValidationErrors msgs = Join msgs "; ").
Proof.
  intros Hmsgs. unfold FormatValidationErrors. rewrite length_fmap.
  destruct (length msgs =? 0)%nat eqn:Hlen.
  { rewrite Join_nil_length by done. done. }
  split.
  - f_equal. rewrite <-list_fmap_compose.
    rewrite <-(list_fmap_id msgs) at 2. apply Forall_fmap_ext_1.
    eapply Forall_impl; [exact Hmsgs|]. intros m Hm. simpl.
    rewrite TrimPrefix_root. by apply TrimPrefix_absent.
  - intros Hroot. f_equal.
    rewrite <-(list_fmap_id msgs) at 2. apply Forall_fmap_ext_1.
    apply Forall_forall. intros m Hm. rewrite Forall_forall in Hmsgs, Hroot.
    rewrite (TrimPrefix_absent m "(root): ") by auto. apply TrimPrefix_absent. auto.
Qed.

(** X18. The responses of the mock producers agree with the schemas the
    validator checks them against: their encoding is an object with exactly
    the properties the schema requires, and their status is one of the
    values the schema enumerates.  The traffic response echoes the service
    id, has an id starting with [traffic-], and does not depend on the
    request. *)
Theorem generated_responses_fit_their_schemas now_id now_ts serviceID request :
  let t := GenerateTrafficResponse now_id now_ts serviceID request in
  let s := GenerateStatusResponse now_ts in
  (tr_ServiceID t = serviceID
   ∧ HasPrefix (tr_ID t) "traffic-" = true
   ∧ ∀ request', GenerateTrafficResponse now_id now_ts serviceID request' = t)
  ∧ (∃ m, Marshal (TrafficResponseV t) = Some (JObject m)
          ∧ dom m = list_to_set (strings_of (traffic_response_schema !! "required")))
  ∧ tr_Status t ∈ strings_of
      (member (member (traffic_response_schema !! "properties") "status") "enum")
  ∧ (∃ m, Marshal (StatusResponseV s) = Some (JObject m)
          ∧ dom m = list_to_set (strings_of (status_response_schema !! "required")))
  ∧ sr_Status s ∈ strings_of
      (member (member (status_response_schema !! "properties") "status") "enum").
Proof.
  cbv zeta. split_and!.
  - done.
  - apply (prefix_append "traffic-").
  - done.
  - eexists. split; [done|].
    rewrite !dom_insert_L, dom_singleton_L.
    vm_compute strings_of. simpl. set_solver.
  - vm_compute. set_solver.
  - eexists. split; [done|].
    rewrite !dom_insert_L, dom_singleton_L.
    vm_compute strings_of. simpl. set_solver.
  - vm_compute. set_solver.
Qed.

(** ** Further properties of the handlers *)

Lemma CreatePolicyInput_fixed_keys method path headers body :
  CreatePolicyInput method path headers body !! "method" = Some (Str method)
  ∧ CreatePolicyInput method path headers body !! "path" = Some (Str path)
  ∧ CreatePolicyInput method path headers body !! "headers" = Some (StrMap headers).
Proof.
  unfold CreatePolicyInput.
  destruct body; try done;
    destruct (Marshal _) as [bodyBytes|]; try done;
    destruct (Unmarshal_map bodyBytes) as [bodyMap|]; try done;
    by rewrite !lookup_insert_ne.
Qed.

(** X19. For a body decoded from a JSON text, CreatePolicyInput binds
    [body] exactly when the text is an object, and then to the decoded
    object itself; a request body that is [null], an array, a string, a
    number or a boolean gives an input without [body]. *)
Theorem CreatePolicyInput_decoded_body method path headers j :
  CreatePolicyInput method path headers (decode j) !! "body" =
  match j with
  | JObject _ => Some (decode j)
  | _ => None
  end.
Proof.
  unfold CreatePolicyInput. rewrite Marshal_decode.
  destruct j; done.
Qed.

Lemma Split_slash_segment s : no_slash s = true → Split_slash s = [s].
Proof.
  induction s as [|a s IH]; [done|]. simpl.
  destruct (Ascii.eqb a "/"); [done|]. simpl. intros Hs. by rewrite IH.
Qed.

Lemma Split_slash_append s r :
  no_slash s = true → Split_slash (s +:+ "/" +:+ r) = s :: Split_slash r.
Proof.
  induction s as [|a s IH]; [done|]. simpl.
  destruct (Ascii.eqb a "/"); [done|]. simpl. intros Hs. by rewrite IH.
Qed.

Lemma Split_slash_Join segs :
  segs ≠ [] → Forall (λ s, no_slash s = true) segs →
  Split_slash (Join segs "/") = segs.
Proof.
  intros Hne Hsegs. induction Hsegs as [|s rest Hs Hrest IH]; [done|].
  destruct rest as [|s' rest]; [by apply Split_slash_segment|].
  change (Join (s :: s' :: rest) "/") with (s +:+ "/" +:+ Join (s' :: rest) "/").
  rewrite Split_slash_append by done. f_equal. by apply IH.
Qed.

Lemma rego_eval_not_response l :
  Forall is_rego_eval l → Forall (λ e, ¬ is_response e) l.
Proof.
  intros Hl. eapply Forall_impl; [exact Hl|].
  intros [] Hx; simpl in *; tauto.
Qed.

Lemma check_or_log_not_response l :
  Forall is_check_or_log l → Forall (λ e, ¬ is_response e) l.
Proof.
  intros Hl. eapply Forall_impl; [exact Hl|].
  intros [] Hx; simpl in *; tauto.
Qed.

Section HandlerProperties.

Variable gojsonschema_Validate : json → json → gojsonschema_Result * option error.
Variable Marshal_error : any → error.
Variable Unmarshal_TrafficRequest : json → TrafficRequest.
Variable time_Now : nat → Time.

Local Abbreviation ValidateRequest' := (ValidateRequest gojsonschema_Validate Marshal_error).
Local Abbreviation handleGET' :=
  (handleGET gojsonschema_Validate Marshal_error time_Now).
Local Abbreviation handlePOST' :=
  (handlePOST gojsonschema_Validate Marshal_error Unmarshal_TrafficRequest time_Now).
Local Abbreviation createHandler' :=
  (createHandler gojsonschema_Validate Marshal_error Unmarshal_TrafficRequest time_Now).
Local Abbreviation GET_response_check' :=
  (GET_response_check gojsonschema_Validate Marshal_error time_Now).
Local Abbreviation POST_response_check' :=
  (POST_response_check gojsonschema_Validate Marshal_error Unmarshal_TrafficRequest time_Now).

(** X20. Every invocation of a handler writes exactly one response, as the
    last thing it does, and its status is 200, 400, 403 or 405. *)
Theorem handler_writes_one_response rm route c :
  ∃ pre code obj,
    trace (createHandler' rm route c) = pre ++ [EvJSON code obj]
    ∧ Forall (λ e, ¬ is_response e) pre
    ∧ code ∈ [http_StatusOK; http_StatusBadRequest; http_StatusForbidden;
              http_StatusMethodNotAllowed].
Proof.
  destruct (String.eqb_spec (Method route) "GET") as [Hg|Hg];
    [|destruct (String.eqb_spec (Method route) "POST") as [Hp|Hp]].
  - rewrite createHandler_GET by done. rewrite handleGET_trace. cbv zeta.
    match goal with |- context [trace ?m ++ _] => set (ep := m) end.
    pose proof (rego_eval_not_response _ (EvaluatePolicies_trace
      (policyManager rm) (Policies route)
      (CreatePolicyInput "GET" (RouteName route) (Some (omap head (Header c))) Nil)))
      as Hep. fold ep in Hep.
    destruct (Allowed (returned ep).1).
    + eexists (trace ep ++ GET_response_check' route), _, _. split_and!.
      * by rewrite <-app_assoc.
      * apply Forall_app. split; [done|].
        apply check_or_log_not_response, GET_response_check_events.
      * set_solver.
    + eexists (trace ep), _, _. split_and!; [done | done | set_solver].
  - rewrite createHandler_POST by done. rewrite handlePOST_trace.
    destruct (Body c) as [e|j].
    { exists [], http_StatusBadRequest. eexists. split_and!; [done | done | set_solver]. }
    cbv zeta.
    match goal with |- context [trace ?m ++ (if _ then trace ?m' ++ _ else _)] =>
      set (v := m); set (ep := m') end.
    pose proof (check_or_log_not_response _ (ValidateRequest_trace
      gojsonschema_Validate Marshal_error (RequestSchema route) (decode j))) as Hv.
    fold v in Hv.
    pose proof (rego_eval_not_response _ (EvaluatePolicies_trace
      (policyManager rm) (Policies route)
      (CreatePolicyInput "POST" (RouteName route) (Some (omap head (Header c)))
         (decode j)))) as Hep. fold ep in Hep.
    destruct (Valid (returned v)).
    + destruct (Allowed (returned ep).1).
      * eexists (trace v ++ trace ep ++ POST_response_check' route c (decode j)), _, _.
        split_and!.
        -- by rewrite <-!app_assoc.
        -- apply Forall_app. split; [done|]. apply Forall_app. split; [done|].
           apply check_or_log_not_response, POST_response_check_events.
        -- set_solver.
      * eexists (trace v ++ trace ep), _, _. split_and!.
        -- by rewrite <-app_assoc.
        -- by apply Forall_app.
        -- set_solver.
    + eexists (trace v), _, _. split_and!; [done | done | set_solver].
  - rewrite createHandler_other by done.
    exists [], http_StatusMethodNotAllowed. eexists.
    split_and!; [done | done | set_solver].
Qed.

(** X21. Every evaluation a handler asks of the engine is for a registered
    policy named by the route, on an input whose [method] and [path] are
    the method and the name configured for the route (not the path of the
    request) and whose [headers] hold the first value of each request
    header that has one. *)
Theorem handler_policy_inputs rm route c n input :
  EvRegoEval n input ∈ trace (createHandler' rm route c) →
  n ∈ Policies route
  ∧ is_Some (policies (policyManager rm) !! n)
  ∧ input !! "method" = Some (Str (Method route))
  ∧ input !! "path" = Some (Str (RouteName route))
  ∧ input !! "headers" = Some (StrMap (Some (omap head (Header c)))).
Proof.
  assert (Hfrom : ∀ body,
    EvRegoEval n input ∈ trace (EvaluatePolicies (policyManager rm) (Policies route)
      (CreatePolicyInput (Method route) (RouteName route)
         (Some (omap head (Header c))) body)) →
    n ∈ Policies route
    ∧ is_Some (policies (policyManager rm) !! n)
    ∧ input !! "method" = Some (Str (Method route))
    ∧ input !! "path" = Some (Str (RouteName route))
    ∧ input !! "headers" = Some (StrMap (Some (omap head (Header c))))).
  { intros body Hin.
    destruct (EvaluatePolicies_trace_events (policyManager rm)
      (CreatePolicyInput (Method route) (RouteName route)
         (Some (omap head (Header c))) body) (Policies route)) as [Hev _].
    rewrite Forall_forall in Hev. destruct (Hev _ Hin) as (m & [= -> ->] & Hm & Hs).
    split; [done|]. split; [done|]. apply CreatePolicyInput_fixed_keys. }
  assert (Hcheck : ∀ l, Forall is_check_or_log l → EvRegoEval n input ∉ l).
  { intros l Hl Hin. rewrite Forall_forall in Hl. by apply Hl in Hin. }
  destruct (String.eqb_spec (Method route) "GET") as [Hg|Hg];
    [|destruct (String.eqb_spec (Method route) "POST") as [Hp|Hp]].
  - rewrite createHandler_GET by done. rewrite handleGET_trace. cbv zeta.
    rewrite <-Hg. rewrite elem_of_app. intros [Hin | Hin]; [by apply (Hfrom Nil)|].
    destruct (Allowed _).
    + apply elem_of_app in Hin as [Hin | Hin].
      * by apply Hcheck in Hin; [|apply GET_response_check_events].
      * by apply list_elem_of_singleton in Hin.
    + by apply list_elem_of_singleton in Hin.
  - rewrite createHandler_POST by done. rewrite handlePOST_trace.
    destruct (Body c) as [e|j]; [by intros Hin%list_elem_of_singleton|].
    cbv zeta. rewrite <-Hp. rewrite elem_of_app. intros [Hin | Hin].
    { by apply Hcheck in Hin; [|apply ValidateRequest_trace]. }
    destruct (Valid _); [|by apply list_elem_of_singleton in Hin].
    apply elem_of_app in Hin as [Hin | Hin]; [by apply (Hfrom (decode j))|].
    destruct (Allowed _); [|by apply list_elem_of_singleton in Hin].
    apply elem_of_app in Hin as [Hin | Hin].
    + by apply Hcheck in Hin; [|apply POST_response_check_events].
    + by apply list_elem_of_singleton in Hin.
  - rewrite createHandler_other by done. by intros Hin%list_elem_of_singleton.
Qed.

(** X22. A POST whose body is not a JSON text is answered 400
    [Invalid JSON: <error>] at once: the request is not validated, no
    policy is evaluated and no response is produced. *)
Theorem malformed_body_is_rejected rm route c e :
  Method route = "POST" →
  Body c = Malformed e →
  createHandler' rm route c
  = ((), [EvJSON http_StatusBadRequest (H {[ "error" := Str ("Invalid JSON: " +:+ e) ]})]).
Proof.
  intros Hm Hb. rewrite createHandler_POST by done.
  unfold handlePOST, ShouldBindJSON. by rewrite Hb.
Qed.

(** X23. When the policies of a route deny a request, the handler answers
    403, names in its error the first policy of the route that denies, and
    stops: it produces no response value, makes no response check and logs
    nothing. *)
Theorem denied_request_is_forbidden rm route c headers :
  (let input := CreatePolicyInput "GET" (RouteName route) headers Nil in
   let ep := EvaluatePolicies (policyManager rm) (Policies route) input in
   Allowed (returned ep).1 = false →
   ∃ pre d post,
     Policies route = pre ++ d :: post
     ∧ (∀ n, n ∈ pre → allows (policyManager rm) input n = true)
     ∧ allows (policyManager rm) input d = false
     ∧ trace (handleGET' rm c route headers) =
       trace ep ++ [EvJSON http_StatusForbidden
                      (H {[ "error" := Str ("Request denied by policy: Policy "
                                             +:+ d +:+ " denied the request") ]})])
  ∧ (∀ j, Body c = WellFormed j →
     let input := CreatePolicyInput "POST" (RouteName route) headers (decode j) in
     let v := ValidateRequest' (RequestSchema route) (decode j) in
     let ep := EvaluatePolicies (policyManager rm) (Policies route) input in
     Valid (returned v) = true →
     Allowed (returned ep).1 = false →
     ∃ pre d post,
       Policies route = pre ++ d :: post
       ∧ (∀ n, n ∈ pre → allows (policyManager rm) input n = true)
       ∧ allows (policyManager rm) input d = false
       ∧ trace (handlePOST' rm c route headers) =
         trace v ++ trace ep
         ++ [EvJSON http_StatusForbidden
               (H {[ "error" := Str ("Request denied by policy: Policy "
                                      +:+ d +:+ " denied the request") ]})]).
Proof.
  assert (Hdeny : ∀ input,
    Allowed (returned (EvaluatePolicies (policyManager rm) (Policies route) input)).1
      = false →
    ∃ pre d post,
      Policies route = pre ++ d :: post
      ∧ (∀ n, n ∈ pre → allows (policyManager rm) input n = true)
      ∧ allows (policyManager rm) input d = false
      ∧ denied_by_policy
          (returned (EvaluatePolicies (policyManager rm) (Policies route) input)).1
        = H {[ "error" := Str ("Request denied by policy: Policy "
                                +:+ d +:+ " denied the request") ]}).
  { intros input. rewrite EvaluatePolicies_is_range.
    destruct (EvaluatePolicies_range_spec (policyManager rm) input (Policies route))
      as [[-> _] | (pre & d & post & Hnames & Hpre & Hd & ->)]; [done|].
    intros _. exists pre, d, post. rewrite Forall_forall in Hpre. done. }
  split.
  - intros input ep Hdenied. destruct (Hdeny input Hdenied) as (pre & d & post & ? & ? & ? & Hobj).
    exists pre, d, post. split_and!; try done.
    rewrite handleGET_trace. cbv zeta. fold input. subst ep.
    by rewrite Hdenied, Hobj.
  - intros j Hb input v ep Hvalid Hdenied.
    destruct (Hdeny input Hdenied) as (pre & d & post & ? & ? & ? & Hobj).
    exists pre, d, post. split_and!; try done.
    rewrite handlePOST_trace, Hb. cbv zeta. fold input v. subst ep.
    by rewrite Hvalid, Hdenied, Hobj.
Qed.

(** X24. A GET route never looks at the body or the path of the request,
    nor at its request schema: two requests with the same headers are
    handled alike, whatever request schema the route is configured with. *)
Theorem GET_ignores_body_and_request_schema rm route c c' schema :
  Method route = "GET" →
  Header c = Header c' →
  createHandler' rm (with_RequestSchema schema route) c' = createHandler' rm route c.
Proof.
  intros Hm Hh. unfold createHandler. cbn [with_RequestSchema Method].
  rewrite Hm. cbn [String.eqb]. rewrite Hh. by destruct route.
Qed.

(** X25. On a traffic route (a POST route whose name contains [/services/]
    and ends in [/traffic]), once the request is valid and allowed, the
    response is built from the path of the request: with at least four
    segments, it is the traffic response for the fourth segment as service
    id and for the request decoded from the received text, after one
    response check; with fewer, it is [null] and no check is made.  The
    status is 200 in both cases. *)
Theorem traffic_response_uses_fourth_segment rm route c headers j segs :
  Contains (RouteName route) "/services/" && HasSuffix (RouteName route) "/traffic" = true →
  Body c = WellFormed j →
  segs ≠ [] →
  Forall (λ s, no_slash s = true) segs →
  URL_Path c = Join segs "/" →
  let v := ValidateRequest' (RequestSchema route) (decode j) in
  let ep := EvaluatePolicies (policyManager rm) (Policies route)
              (CreatePolicyInput "POST" (RouteName route) headers (decode j)) in
  Valid (returned v) = true →
  Allowed (returned ep).1 = true →
  match segs !! 3%nat with
  | Some serviceID =>
      let response :=
        GenerateTrafficResponse (time_Now 0) (time_Now 1) serviceID
          (Unmarshal_TrafficRequest j) in
      trace (handlePOST' rm c route headers) =
        trace v ++ trace ep
        ++ logged_check (ValidateTrafficResponse gojsonschema_Validate Marshal_error
                           response)
        ++ [EvJSON http_StatusOK (TrafficResponseV response)]
  | None =>
      trace (handlePOST' rm c route headers) =
        trace v ++ trace ep ++ [EvJSON http_StatusOK Nil]
  end.
Proof.
  intros Hname Hb Hne Hsegs Hpath v ep Hvalid Hallow.
  rewrite handlePOST_trace, Hb. cbv zeta. fold v ep. rewrite Hvalid, Hallow.
  unfold POST_response_check, POST_response, POST_traffic_response.
  rewrite Hname, Hpath, Split_slash_Join, Marshal_decode by done.
  destruct (segs !! 3%nat) as [serviceID|] eqn:Hseg.
  - apply lookup_lt_Some in Hseg.
    rewrite (leb_correct 4 (length segs)) by lia. done.
  - apply lookup_ge_None in Hseg.
    rewrite (leb_correct_conv (length segs) 4) by lia. done.
Qed.

End HandlerProperties.

(** ** The further properties on concrete inputs *)

Module MoreExamples.
Import Scenario Startup.

Lemma EvaluatePolicies_decision_by_members_witness :
  (∀ n, n ∈ ["service_policy"; "traffic_policy"]
        ↔ n ∈ ["traffic_policy"; "service_policy"; "traffic_policy"])
  ∧ Allowed (returned (EvaluatePolicies pm ["service_policy"; "traffic_policy"]
                         bad_input)).1
    = Allowed (returned (EvaluatePolicies pm
                           ["traffic_policy"; "service_policy"; "traffic_policy"]
                           bad_input)).1.
Proof.
  assert (∀ n, n ∈ ["service_policy"; "traffic_policy"]
               ↔ n ∈ ["traffic_policy"; "service_policy"; "traffic_policy"]) as Hmem.
  { intros n. rewrite !elem_of_cons, !elem_of_nil. tauto. }
  split; [exact Hmem|].
  exact (EvaluatePolicies_decision_by_members pm bad_input _ _ Hmem).
Defined.

(** An engine error under one manager and a name that is not registered
    under another give the same combined outcome. *)
Lemma EvaluatePolicies_hides_diagnostics_witness :
  (∀ n, n ∈ ["failing_policy"] →
        allows pm good_input n = allows NewPolicyManager good_input n)
  ∧ returned (EvaluatePolicies pm ["failing_policy"] good_input)
    = returned (EvaluatePolicies NewPolicyManager ["failing_policy"] good_input).
Proof.
  assert (∀ n, n ∈ ["failing_policy"] →
               allows pm good_input n = allows NewPolicyManager good_input n) as Hsame.
  { intros n Hn. apply list_elem_of_singleton in Hn as ->. vm_compute. reflexivity. }
  split; [exact Hsame|].
  exact (EvaluatePolicies_hides_diagnostics pm NewPolicyManager good_input good_input
           ["failing_policy"] Hsame).
Defined.

Lemma LoadPolicies_loaded_names_witness :
  read_dir "policies" = (files, None)
  ∧ "status_policy" ∈ ListLoadedPolicies
      (returned (load_policies NewPolicyManager "policies")).1
  ∧ policies (returned (load_policies NewPolicyManager "policies")).1
      !! "broken_policy" = None.
Proof.
  split; [reflexivity|].
  destruct (LoadPolicies_loaded_names read_dir read_file join prepare
              NewPolicyManager "policies" files "status_policy" eq_refl)
    as [Hnames _].
  destruct (LoadPolicies_loaded_names read_dir read_file join prepare
              NewPolicyManager "policies" files "broken_policy" eq_refl)
    as [_ Hkept].
  split.
  - apply Hnames. right. exists {| Name := "status_policy.rego"; IsDir := false |}.
    split_and!; [|vm_compute; reflexivity..].
    do 3 apply list_elem_of_further. apply list_elem_of_here.
  - rewrite Hkept; [reflexivity|].
    intros file Hin Hloads.
    repeat (apply elem_of_cons in Hin as [-> | Hin]);
      try (vm_compute in Hloads; discriminate Hloads);
      try (vm_compute; discriminate).
    by apply elem_of_nil in Hin.
Defined.

Lemma LoadPolicies_logs_witness :
  read_dir "policies" = (files, None)
  ∧ length (trace (load_policies NewPolicyManager "policies")) = 4%nat.
Proof.
  split; [reflexivity|].
  destruct (LoadPolicies_logs read_dir read_file join prepare
              NewPolicyManager "policies" files eq_refl) as [_ ->].
  vm_compute. reflexivity.
Defined.

(** The broken policy does not compile: a route that names it is denied. *)
Lemma skipped_policy_fails_closed_witness :
  read_dir "policies" = (files, None)
  ∧ policies NewPolicyManager !! "broken_policy" = None
  ∧ Allowed (returned (EvaluatePolicies
                         (returned (load_policies NewPolicyManager "policies")).1
                         ["service_policy"; "broken_policy"] good_input)).1 = false.
Proof.
  split; [reflexivity|]. split; [reflexivity|].
  apply (skipped_policy_fails_closed read_dir read_file join prepare
           NewPolicyManager "policies" files "broken_policy").
  - reflexivity.
  - reflexivity.
  - intros file Hin Hloads.
    repeat (apply elem_of_cons in Hin as [-> | Hin]);
      try (vm_compute in Hloads; discriminate Hloads);
      try (vm_compute; discriminate).
    by apply elem_of_nil in Hin.
  - apply list_elem_of_further, list_elem_of_here.
Defined.


Lemma FormatValidationErrors_strips_root_witness :
  Forall (λ m, HasPrefix m "I[0," = false)
    ["trafficType is required"; "volume: Must be greater than or equal to 0"]
  ∧ FormatValidationErrors
      ["(root): trafficType is required";
       "(root): volume: Must be greater than or equal to 0"]
    = "trafficType is required; volume: Must be greater than or equal to 0".
Proof.
  assert (Forall (λ m, HasPrefix m "I[0," = false)
            ["trafficType is required";
             "volume: Must be greater than or equal to 0"]) as Hmsgs.
  { repeat constructor. }
  split; [exact Hmsgs|].
  exact (proj1 (FormatValidationErrors_strips_root _ Hmsgs)).
Defined.

Lemma handler_policy_inputs_witness :
  EvRegoEval "status_policy"
    (CreatePolicyInput "GET" "/v1/status" (Some {[ "Accept" := "*/*" ]}) Nil)
    ∈ trace (handler rm status_route get_request)
  ∧ CreatePolicyInput "GET" "/v1/status" (Some {[ "Accept" := "*/*" ]}) Nil !! "path"
    = Some (Str (RouteName status_route)).
Proof.
  assert (EvRegoEval "status_policy"
            (CreatePolicyInput "GET" "/v1/status" (Some {[ "Accept" := "*/*" ]}) Nil)
            ∈ trace (handler rm status_route get_request)) as Hin.
  { vm_compute. apply list_elem_of_here. }
  split; [exact Hin|].
  apply (handler_policy_inputs type_engine marshal_error unmarshal_traffic_request
           clock rm status_route get_request "status_policy" _ Hin).
Defined.

Lemma malformed_body_is_rejected_witness :
  Method traffic_route = "POST"
  ∧ Body get_request = Malformed "EOF"
  ∧ handler rm traffic_route get_request
    = ((), [EvJSON http_StatusBadRequest
              (H {[ "error" := Str "Invalid JSON: EOF" ]})]).
Proof.
  split; [reflexivity|]. split; [reflexivity|].
  apply (malformed_body_is_rejected type_engine marshal_error
           unmarshal_traffic_request clock rm traffic_route get_request "EOF");
    reflexivity.
Defined.

Lemma GET_ignores_body_and_request_schema_witness :
  Method status_route = "GET"
  ∧ Header get_request
    = Header {| Header := {[ "Accept" := ["*/*"] ]}; URL_Path := "/elsewhere";
                Body := WellFormed bad_body |}
  ∧ handler rm (with_RequestSchema (Some {[ "type" := Str "string" ]}) status_route)
      {| Header := {[ "Accept" := ["*/*"] ]}; URL_Path := "/elsewhere";
         Body := WellFormed bad_body |}
    = handler rm status_route get_request.
Proof.
  split; [reflexivity|]. split; [reflexivity|].
  apply (GET_ignores_body_and_request_schema type_engine marshal_error
           unmarshal_traffic_request clock rm status_route get_request);
    reflexivity.
Defined.

(** Scenario B, end to end: the response is for [service123]. *)
Lemma traffic_response_uses_fourth_segment_witness :
  URL_Path (post_request good_body)
  = Join [""; "v1"; "services"; "service123"; "traffic"] "/"
  ∧ trace (handlePOST type_engine marshal_error unmarshal_traffic_request clock
             rm (post_request good_body) traffic_route (Some ∅))
    = [ EvSchemaValidate (JObject {[ "type" := JString "object" ]}) good_body;
        EvRegoEval "traffic_policy" good_input;
        EvRegoEval "service_policy" good_input;
        EvSchemaValidate
          (default JNull (Marshal (H traffic_response_schema)))
          (Marshal_TrafficResponse
             (GenerateTrafficResponse (clock 0) (clock 1) "service123"
                (unmarshal_traffic_request good_body)));
        EvJSON http_StatusOK
          (TrafficResponseV
             (GenerateTrafficResponse (clock 0) (clock 1) "service123"
                (unmarshal_traffic_request good_body))) ].
Proof.
  split; [reflexivity|].
  etrans.
  - apply (traffic_response_uses_fourth_segment type_engine marshal_error
             unmarshal_traffic_request clock rm traffic_route
             (post_request good_body) (Some ∅) good_body
             [""; "v1"; "services"; "service123"; "traffic"]).
    + vm_compute. reflexivity.
    + reflexivity.
    + discriminate.
    + repeat constructor.
    + reflexivity.
    + vm_compute. reflexivity.
    + vm_compute. reflexivity.
  - vm_compute. reflexivity.
Defined.

(** A configuration that lists a route twice: the second registration is
    refused by gin and RegisterRoutes panics after one log line. *)
Example duplicate_route_panics :
  RegisterRoutes type_engine marshal_error unmarshal_traffic_request clock no_conflict
    {| config := Some [put_route; put_route]; policyManager := pm |} []
  = (None, [EvLog "Registered route: PUT /v1/items"]).
Proof. reflexivity. Qed.

(** The configuration of [Startup]: the route with the method [get] is
    skipped, the two others are registered. *)
Example startup_routes_are_registered :
  (λ r, (registered r.1, r.2))
    <$> returned (RegisterRoutes type_engine marshal_error unmarshal_traffic_request
                    clock no_conflict
                    {| config := Some (parse_config "routes").1; policyManager := pm |}
                    [])
  = Some ([("GET", "/v1/status"); ("PUT", "/v1/items")], None).
Proof. reflexivity. Qed.

(** The decoder accepts the body of Scenario B, and refuses an object that
    holds the number 10^400. *)
Example decoder_accepts_good_body :
  decoder_accepts good_body = true
  ∧ decoder_accepts (JObject {[ "volume" := JNumber (10 ^ 400) ]}) = false.
Proof. split; vm_compute; reflexivity. Qed.

End MoreExamples.
